(** * URL shortener: the code generator, the validators, the in-memory store
      and the three HTTP handlers of [app/utils.py], [app/models.py] and
      [app/main.py], embedded as executable definitions, with the properties
      of the specification stated and proved about them. *)

From Stdlib Require Import ZArith NArith Ascii String.
From stdpp Require Import gmap list.

Local Open Scope Z_scope.
Set Warnings "-register-all".

(** ** Python values *)

(** A Python [str] is a sequence of Unicode code points. *)
Abbreviation char := N (only parsing).
Abbreviation pystr := (list N) (only parsing).

(** ASCII literals of the source, written as Rocq strings. *)
Fixpoint lit (s : string) : pystr :=
  match s with
  | EmptyString => []
  | String a s' => N_of_ascii a :: lit s'
  end.

(** The dynamically typed values a handler can receive from a JSON body.
    A float is kept only as far as the code observes it: whether it is zero. *)
Inductive pyval : Type :=
| VNone
| VBool (b : bool)
| VInt (z : Z)
| VFloat (nonzero : bool)
| VStr (s : pystr)
| VList (l : list pyval)
| VDict (d : list (pystr * pyval)).

(** Truth value of an object, as [not x] and [if x] test it. *)
Definition truthy (v : pyval) : bool :=
  match v with
  | VNone => false
  | VBool b => b
  | VInt z => negb (z =? 0)
  | VFloat nz => nz
  | VStr s => match s with [] => false | _ => true end
  | VList l => match l with [] => false | _ => true end
  | VDict d => match d with [] => false | _ => true end
  end.

(** [isinstance(v, str)] *)
Definition is_str (v : pyval) : bool :=
  match v with VStr _ => true | _ => false end.

(** Outcome of a call that may raise. *)
Inductive result (A : Type) : Type :=
| Ok (a : A)
| Raise (msg : string).
Arguments Ok {A} a.
Arguments Raise {A} msg.

Module Unicode.

(** [str.isspace] on one code point; the same set is the regular expression
    class [\s] on [str] patterns and the set removed by [str.strip()]. *)
Definition isspace (c : char) : bool :=
  ((9 <=? c) && (c <=? 13) || (28 <=? c) && (c <=? 32) || (c =? 133)
   || (c =? 160) || (c =? 5760) || (8192 <=? c) && (c <=? 8202)
   || (c =? 8232) || (c =? 8233) || (c =? 8239) || (c =? 8287)
   || (c =? 12288))%N.

(** Inclusive code-point ranges on which [str.isalnum] holds (the characters
    that are alphabetic, decimal, digit or numeric), Unicode 14.0. *)
Definition alnum_ranges : list (N * N) := [
  (48, 57); (65, 90); (97, 122); (170, 170); (178, 179); (181, 181);
   (185, 186); (188, 190); (192, 214); (216, 246); (248, 705); (710, 721);
   (736, 740); (748, 748); (750, 750); (880, 884); (886, 887); (890, 893);
   (895, 895); (902, 902); (904, 906); (908, 908); (910, 929); (931, 1013);
   (1015, 1153); (1162, 1327); (1329, 1366); (1369, 1369); (1376, 1416);
   (1488, 1514); (1519, 1522); (1568, 1610); (1632, 1641); (1646, 1647);
   (1649, 1747); (1749, 1749); (1765, 1766); (1774, 1788); (1791, 1791);
   (1808, 1808); (1810, 1839); (1869, 1957); (1969, 1969); (1984, 2026);
   (2036, 2037); (2042, 2042); (2048, 2069); (2074, 2074); (2084, 2084);
   (2088, 2088); (2112, 2136); (2144, 2154); (2160, 2183); (2185, 2190);
   (2208, 2249); (2308, 2361); (2365, 2365); (2384, 2384); (2392, 2401);
   (2406, 2415); (2417, 2432); (2437, 2444); (2447, 2448); (2451, 2472);
   (2474, 2480); (2482, 2482); (2486, 2489); (2493, 2493); (2510, 2510);
   (2524, 2525); (2527, 2529); (2534, 2545); (2548, 2553); (2556, 2556);
   (2565, 2570); (2575, 2576); (2579, 2600); (2602, 2608); (2610, 2611);
   (2613, 2614); (2616, 2617); (2649, 2652); (2654, 2654); (2662, 2671);
   (2674, 2676); (2693, 2701); (2703, 2705); (2707, 2728); (2730, 2736);
   (2738, 2739); (2741, 2745); (2749, 2749); (2768, 2768); (2784, 2785);
   (2790, 2799); (2809, 2809); (2821, 2828); (2831, 2832); (2835, 2856);
   (2858, 2864); (2866, 2867); (2869, 2873); (2877, 2877); (2908, 2909);
   (2911, 2913); (2918, 2927); (2929, 2935); (2947, 2947); (2949, 2954);
   (2958, 2960); (2962, 2965); (2969, 2970); (2972, 2972); (2974, 2975);
   (2979, 2980); (2984, 2986); (2990, 3001); (3024, 3024); (3046, 3058);
   (3077, 3084); (3086, 3088); (3090, 3112); (3114, 3129); (3133, 3133);
   (3160, 3162); (3165, 3165); (3168, 3169); (3174, 3183); (3192, 3198);
   (3200, 3200); (3205, 3212); (3214, 3216); (3218, 3240); (3242, 3251);
   (3253, 3257); (3261, 3261); (3293, 3294); (3296, 3297); (3302, 3311);
   (3313, 3314); (3332, 3340); (3342, 3344); (3346, 3386); (3389, 3389);
   (3406, 3406); (3412, 3414); (3416, 3425); (3430, 3448); (3450, 3455);
   (3461, 3478); (3482, 3505); (3507, 3515); (3517, 3517); (3520, 3526);
   (3558, 3567); (3585, 3632); (3634, 3635); (3648, 3654); (3664, 3673);
   (3713, 3714); (3716, 3716); (3718, 3722); (3724, 3747); (3749, 3749);
   (3751, 3760); (3762, 3763); (3773, 3773); (3776, 3780); (3782, 3782);
   (3792, 3801); (3804, 3807); (3840, 3840); (3872, 3891); (3904, 3911);
   (3913, 3948); (3976, 3980); (4096, 4138); (4159, 4169); (4176, 4181);
   (4186, 4189); (4193, 4193); (4197, 4198); (4206, 4208); (4213, 4225);
   (4238, 4238); (4240, 4249); (4256, 4293); (4295, 4295); (4301, 4301);
   (4304, 4346); (4348, 4680); (4682, 4685); (4688, 4694); (4696, 4696);
   (4698, 4701); (4704, 4744); (4746, 4749); (4752, 4784); (4786, 4789);
   (4792, 4798); (4800, 4800); (4802, 4805); (4808, 4822); (4824, 4880);
   (4882, 4885); (4888, 4954); (4969, 4988); (4992, 5007); (5024, 5109);
   (5112, 5117); (5121, 5740); (5743, 5759); (5761, 5786); (5792, 5866);
   (5870, 5880); (5888, 5905); (5919, 5937); (5952, 5969); (5984, 5996);
   (5998, 6000); (6016, 6067); (6103, 6103); (6108, 6108); (6112, 6121);
   (6128, 6137); (6160, 6169); (6176, 6264); (6272, 6276); (6279, 6312);
   (6314, 6314); (6320, 6389); (6400, 6430); (6470, 6509); (6512, 6516);
   (6528, 6571); (6576, 6601); (6608, 6618); (6656, 6678); (6688, 6740);
   (6784, 6793); (6800, 6809); (6823, 6823); (6917, 6963); (6981, 6988);
   (6992, 7001); (7043, 7072); (7086, 7141); (7168, 7203); (7232, 7241);
   (7245, 7293); (7296, 7304); (7312, 7354); (7357, 7359); (7401, 7404);
   (7406, 7411); (7413, 7414); (7418, 7418); (7424, 7615); (7680, 7957);
   (7960, 7965); (7968, 8005); (8008, 8013); (8016, 8023); (8025, 8025);
   (8027, 8027); (8029, 8029); (8031, 8061); (8064, 8116); (8118, 8124);
   (8126, 8126); (8130, 8132); (8134, 8140); (8144, 8147); (8150, 8155);
   (8160, 8172); (8178, 8180); (8182, 8188); (8304, 8305); (8308, 8313);
   (8319, 8329); (8336, 8348); (8450, 8450); (8455, 8455); (8458, 8467);
   (8469, 8469); (8473, 8477); (8484, 8484); (8486, 8486); (8488, 8488);
   (8490, 8493); (8495, 8505); (8508, 8511); (8517, 8521); (8526, 8526);
   (8528, 8585); (9312, 9371); (9450, 9471); (10102, 10131); (11264, 11492);
   (11499, 11502); (11506, 11507); (11517, 11517); (11520, 11557);
   (11559, 11559); (11565, 11565); (11568, 11623); (11631, 11631);
   (11648, 11670); (11680, 11686); (11688, 11694); (11696, 11702);
   (11704, 11710); (11712, 11718); (11720, 11726); (11728, 11734);
   (11736, 11742); (11823, 11823); (12293, 12295); (12321, 12329);
   (12337, 12341); (12344, 12348); (12353, 12438); (12445, 12447);
   (12449, 12538); (12540, 12543); (12549, 12591); (12593, 12686);
   (12690, 12693); (12704, 12735); (12784, 12799); (12832, 12841);
   (12872, 12879); (12881, 12895); (12928, 12937); (12977, 12991);
   (13312, 19903); (19968, 42124); (42192, 42237); (42240, 42508);
   (42512, 42539); (42560, 42606); (42623, 42653); (42656, 42735);
   (42775, 42783); (42786, 42888); (42891, 42954); (42960, 42961);
   (42963, 42963); (42965, 42969); (42994, 43009); (43011, 43013);
   (43015, 43018); (43020, 43042); (43056, 43061); (43072, 43123);
   (43138, 43187); (43216, 43225); (43250, 43255); (43259, 43259);
   (43261, 43262); (43264, 43301); (43312, 43334); (43360, 43388);
   (43396, 43442); (43471, 43481); (43488, 43492); (43494, 43518);
   (43520, 43560); (43584, 43586); (43588, 43595); (43600, 43609);
   (43616, 43638); (43642, 43642); (43646, 43695); (43697, 43697);
   (43701, 43702); (43705, 43709); (43712, 43712); (43714, 43714);
   (43739, 43741); (43744, 43754); (43762, 43764); (43777, 43782);
   (43785, 43790); (43793, 43798); (43808, 43814); (43816, 43822);
   (43824, 43866); (43868, 43881); (43888, 44002); (44016, 44025);
   (44032, 55203); (55216, 55238); (55243, 55291); (63744, 64109);
   (64112, 64217); (64256, 64262); (64275, 64279); (64285, 64285);
   (64287, 64296); (64298, 64310); (64312, 64316); (64318, 64318);
   (64320, 64321); (64323, 64324); (64326, 64433); (64467, 64829);
   (64848, 64911); (64914, 64967); (65008, 65019); (65136, 65140);
   (65142, 65276); (65296, 65305); (65313, 65338); (65345, 65370);
   (65382, 65470); (65474, 65479); (65482, 65487); (65490, 65495);
   (65498, 65500); (65536, 65547); (65549, 65574); (65576, 65594);
   (65596, 65597); (65599, 65613); (65616, 65629); (65664, 65786);
   (65799, 65843); (65856, 65912); (65930, 65931); (66176, 66204);
   (66208, 66256); (66273, 66299); (66304, 66339); (66349, 66378);
   (66384, 66421); (66432, 66461); (66464, 66499); (66504, 66511);
   (66513, 66517); (66560, 66717); (66720, 66729); (66736, 66771);
   (66776, 66811); (66816, 66855); (66864, 66915); (66928, 66938);
   (66940, 66954); (66956, 66962); (66964, 66965); (66967, 66977);
   (66979, 66993); (66995, 67001); (67003, 67004); (67072, 67382);
   (67392, 67413); (67424, 67431); (67456, 67461); (67463, 67504);
   (67506, 67514); (67584, 67589); (67592, 67592); (67594, 67637);
   (67639, 67640); (67644, 67644); (67647, 67669); (67672, 67702);
   (67705, 67742); (67751, 67759); (67808, 67826); (67828, 67829);
   (67835, 67867); (67872, 67897); (67968, 68023); (68028, 68047);
   (68050, 68096); (68112, 68115); (68117, 68119); (68121, 68149);
   (68160, 68168); (68192, 68222); (68224, 68255); (68288, 68295);
   (68297, 68324); (68331, 68335); (68352, 68405); (68416, 68437);
   (68440, 68466); (68472, 68497); (68521, 68527); (68608, 68680);
   (68736, 68786); (68800, 68850); (68858, 68899); (68912, 68921);
   (69216, 69246); (69248, 69289); (69296, 69297); (69376, 69415);
   (69424, 69445); (69457, 69460); (69488, 69505); (69552, 69579);
   (69600, 69622); (69635, 69687); (69714, 69743); (69745, 69746);
   (69749, 69749); (69763, 69807); (69840, 69864); (69872, 69881);
   (69891, 69926); (69942, 69951); (69956, 69956); (69959, 69959);
   (69968, 70002); (70006, 70006); (70019, 70066); (70081, 70084);
   (70096, 70106); (70108, 70108); (70113, 70132); (70144, 70161);
   (70163, 70187); (70272, 70278); (70280, 70280); (70282, 70285);
   (70287, 70301); (70303, 70312); (70320, 70366); (70384, 70393);
   (70405, 70412); (70415, 70416); (70419, 70440); (70442, 70448);
   (70450, 70451); (70453, 70457); (70461, 70461); (70480, 70480);
   (70493, 70497); (70656, 70708); (70727, 70730); (70736, 70745);
   (70751, 70753); (70784, 70831); (70852, 70853); (70855, 70855);
   (70864, 70873); (71040, 71086); (71128, 71131); (71168, 71215);
   (71236, 71236); (71248, 71257); (71296, 71338); (71352, 71352);
   (71360, 71369); (71424, 71450); (71472, 71483); (71488, 71494);
   (71680, 71723); (71840, 71922); (71935, 71942); (71945, 71945);
   (71948, 71955); (71957, 71958); (71960, 71983); (71999, 71999);
   (72001, 72001); (72016, 72025); (72096, 72103); (72106, 72144);
   (72161, 72161); (72163, 72163); (72192, 72192); (72203, 72242);
   (72250, 72250); (72272, 72272); (72284, 72329); (72349, 72349);
   (72368, 72440); (72704, 72712); (72714, 72750); (72768, 72768);
   (72784, 72812); (72818, 72847); (72960, 72966); (72968, 72969);
   (72971, 73008); (73030, 73030); (73040, 73049); (73056, 73061);
   (73063, 73064); (73066, 73097); (73112, 73112); (73120, 73129);
   (73440, 73458); (73648, 73648); (73664, 73684); (73728, 74649);
   (74752, 74862); (74880, 75075); (77712, 77808); (77824, 78894);
   (82944, 83526); (92160, 92728); (92736, 92766); (92768, 92777);
   (92784, 92862); (92864, 92873); (92880, 92909); (92928, 92975);
   (92992, 92995); (93008, 93017); (93019, 93025); (93027, 93047);
   (93053, 93071); (93760, 93846); (93952, 94026); (94032, 94032);
   (94099, 94111); (94176, 94177); (94179, 94179); (94208, 100343);
   (100352, 101589); (101632, 101640); (110576, 110579); (110581, 110587);
   (110589, 110590); (110592, 110882); (110928, 110930); (110948, 110951);
   (110960, 111355); (113664, 113770); (113776, 113788); (113792, 113800);
   (113808, 113817); (119520, 119539); (119648, 119672); (119808, 119892);
   (119894, 119964); (119966, 119967); (119970, 119970); (119973, 119974);
   (119977, 119980); (119982, 119993); (119995, 119995); (119997, 120003);
   (120005, 120069); (120071, 120074); (120077, 120084); (120086, 120092);
   (120094, 120121); (120123, 120126); (120128, 120132); (120134, 120134);
   (120138, 120144); (120146, 120485); (120488, 120512); (120514, 120538);
   (120540, 120570); (120572, 120596); (120598, 120628); (120630, 120654);
   (120656, 120686); (120688, 120712); (120714, 120744); (120746, 120770);
   (120772, 120779); (120782, 120831); (122624, 122654); (123136, 123180);
   (123191, 123197); (123200, 123209); (123214, 123214); (123536, 123565);
   (123584, 123627); (123632, 123641); (124896, 124902); (124904, 124907);
   (124909, 124910); (124912, 124926); (124928, 125124); (125127, 125135);
   (125184, 125251); (125259, 125259); (125264, 125273); (126065, 126123);
   (126125, 126127); (126129, 126132); (126209, 126253); (126255, 126269);
   (126464, 126467); (126469, 126495); (126497, 126498); (126500, 126500);
   (126503, 126503); (126505, 126514); (126516, 126519); (126521, 126521);
   (126523, 126523); (126530, 126530); (126535, 126535); (126537, 126537);
   (126539, 126539); (126541, 126543); (126545, 126546); (126548, 126548);
   (126551, 126551); (126553, 126553); (126555, 126555); (126557, 126557);
   (126559, 126559); (126561, 126562); (126564, 126564); (126567, 126570);
   (126572, 126578); (126580, 126583); (126585, 126588); (126590, 126590);
   (126592, 126601); (126603, 126619); (126625, 126627); (126629, 126633);
   (126635, 126651); (127232, 127244); (130032, 130041); (131072, 173791);
   (173824, 177976); (177984, 178205); (178208, 183969); (183984, 191456);
   (194560, 195101); (196608, 201546)
]%N.

Definition in_ranges (rs : list (N * N)) (c : char) : bool :=
  existsb (fun r => (fst r <=? c) && (c <=? snd r))%N rs.

(** [c.isalnum()] for a one-character string. *)
Definition isalnum (c : char) : bool := in_ranges alnum_ranges c.

(** Membership in [A-Za-z0-9]. *)
Definition ascii_alnum (c : char) : bool :=
  ((48 <=? c) && (c <=? 57) || (65 <=? c) && (c <=? 90)
   || (97 <=? c) && (c <=? 122))%N.

End Unicode.

(** [s.strip()]: leading and trailing whitespace removed. *)
Fixpoint lstrip (s : pystr) : pystr :=
  match s with
  | [] => []
  | c :: s' => if Unicode.isspace c then lstrip s' else s
  end.

Definition rstrip (s : pystr) : pystr := rev (lstrip (rev s)).

Definition strip (s : pystr) : pystr := rstrip (lstrip s).

(** [s.isalnum()]: every character alphanumeric and at least one character. *)
Definition str_isalnum (s : pystr) : bool :=
  negb (Nat.eqb (length s) 0) && forallb Unicode.isalnum s.

(** ** Regular expressions of the [re] module, as far as the source uses them *)

Module Regex.

Inductive regex : Type :=
| Never
| Empty
| Class (p : char -> bool)
| Cat (r1 r2 : regex)
| Alt (r1 r2 : regex)
| Star (r : regex).

Fixpoint nullable (r : regex) : bool :=
  match r with
  | Never => false
  | Empty => true
  | Class _ => false
  | Cat r1 r2 => nullable r1 && nullable r2
  | Alt r1 r2 => nullable r1 || nullable r2
  | Star _ => true
  end.

(** The residual of [r] after reading [c]. *)
Fixpoint deriv (c : char) (r : regex) : regex :=
  match r with
  | Never => Never
  | Empty => Never
  | Class p => if p c then Empty else Never
  | Cat r1 r2 =>
      if nullable r1 then Alt (Cat (deriv c r1) r2) (deriv c r2)
      else Cat (deriv c r1) r2
  | Alt r1 r2 => Alt (deriv c r1) (deriv c r2)
  | Star r1 => Cat (deriv c r1) (Star r1)
  end.

(** Whether [r] matches the whole of [s]. *)
Fixpoint fullmatch (r : regex) (s : pystr) : bool :=
  match s with
  | [] => nullable r
  | c :: s' => fullmatch (deriv c r) s'
  end.

(** [re.compile('^r$').match(s)] without [re.MULTILINE]: [^] holds at the
    start, where [match] begins anyway; [$] holds at the end of [s] and just
    before a newline that ends [s]. *)
Definition match_anchored (r : regex) (s : pystr) : bool :=
  fullmatch r s
  || match rev s with
     | c :: p => (c =? 10)%N && fullmatch r (rev p)
     | [] => false
     end.

(** A literal character. *)
Definition chr (c : char) : regex := Class (N.eqb c).

(** A lower-case ASCII letter of the pattern under [re.IGNORECASE]: the
    letter, its upper-case form, and the code points the [re] module folds
    onto it (U+017F onto [s], U+212A onto [k], U+0130 and U+0131 onto [i]). *)
Definition icase (c x : char) : bool :=
  ((x =? c) || (x =? c - 32)
   || (c =? 115) && (x =? 383)
   || (c =? 107) && (x =? 8490)
   || (c =? 105) && ((x =? 304) || (x =? 305)))%N.

Definition ichr (c : char) : regex := Class (icase c).

(** Concatenation of a sequence of patterns. *)
Fixpoint seq (rs : list regex) : regex :=
  match rs with
  | [] => Empty
  | r :: rs' => Cat r (seq rs')
  end.

Definition lits (s : string) : regex := seq (chr <$> lit s).
Definition ilits (s : string) : regex := seq (ichr <$> lit s).

(** [r?] *)
Definition opt (r : regex) : regex := Alt r Empty.

(** [.] without [re.DOTALL]: any character except a newline. *)
Definition dot (c : char) : bool := negb (c =? 10)%N.

(** [[^\s]] *)
Definition not_space (c : char) : bool := negb (Unicode.isspace c).

(** [[^\s/$.?#]] *)
Definition host_start (c : char) : bool :=
  negb (Unicode.isspace c || bool_decide (c ∈ lit "/$.?#")).

(** The language of a pattern. *)
Inductive Matches : regex → pystr → Prop :=
| MEmpty : Matches Empty []
| MClass p c : p c = true → Matches (Class p) [c]
| MCat r1 r2 s1 s2 :
    Matches r1 s1 → Matches r2 s2 → Matches (Cat r1 r2) (s1 ++ s2)
| MAltL r1 r2 s : Matches r1 s → Matches (Alt r1 r2) s
| MAltR r1 r2 s : Matches r2 s → Matches (Alt r1 r2) s
| MStarNil r : Matches (Star r) []
| MStarApp r s1 s2 :
    Matches r s1 → Matches (Star r) s2 → Matches (Star r) (s1 ++ s2).

(** [s] is the word [w] up to the case folding of [re.IGNORECASE]. *)
Definition folds_to (w : string) (s : pystr) : Prop :=
  Forall2 (λ x c, icase c x = true) s (lit w).

End Regex.

(** ** [app/utils.py] *)

(** The random source: a tape of draws and the position of the next one. *)
Record rng : Type := Rng { tape : nat -> nat; pos : nat }.

(** Computations that read the random source. *)
Definition Rand (A : Type) : Type := rng -> A * rng.

Definition ret {A : Type} (a : A) : Rand A := fun g => (a, g).

Definition bind {A B : Type} (m : Rand A) (k : A -> Rand B) : Rand B :=
  fun g => let (a, g') := m g in k a g'.

Notation "x <- m ;; k" := (bind m (fun x => k))
  (at level 100, m at next level, right associativity).

(** A draw below [n]. *)
Definition randbelow (n : nat) : Rand nat :=
  fun g => ((tape g (pos g) mod n)%nat, Rng (tape g) (S (pos g))).

(** [random.choice(seq)] for a non-empty [seq]. *)
Definition choice (seq : pystr) : Rand char :=
  i <- randbelow (length seq) ;; ret (nth i seq 0%N).

Definition ascii_lowercase : pystr := lit "abcdefghijklmnopqrstuvwxyz".
Definition ascii_uppercase : pystr := lit "ABCDEFGHIJKLMNOPQRSTUVWXYZ".
Definition ascii_letters : pystr := ascii_lowercase ++ ascii_uppercase.
Definition digits : pystr := lit "0123456789".

(** [chars = string.ascii_letters + string.digits] *)
Definition chars : pystr := ascii_letters ++ digits.

(** [''.join(random.choice(chars) for _ in range(n))] *)
Fixpoint random_code (n : nat) : Rand pystr :=
  match n with
  | O => ret []
  | S n' => c <- choice chars ;; s <- random_code n' ;; ret (c :: s)
  end.

Definition max_attempts : nat := 100.

(** [code not in existing_codes], guarded by [existing_codes is None]. *)
Definition accepts (existing_codes : option (gset pystr)) (code : pystr) : bool :=
  match existing_codes with
  | None => true
  | Some e => bool_decide (code ∉ e)
  end.

(** The [for _ in range(max_attempts)] loop with [k] iterations left, and
    the [raise] that follows it. *)
Fixpoint attempts (k : nat) (length : Z) (existing_codes : option (gset pystr))
  : Rand (result pystr) :=
  match k with
  | O => ret (Raise "Unable to generate unique short code")
  | S k' =>
      code <- random_code (Z.to_nat length) ;;
      if accepts existing_codes code then ret (Ok code)
      else attempts k' length existing_codes
  end.

(** [generate_short_code(length, existing_codes)] *)
Definition generate_short_code (length : Z) (existing_codes : option (gset pystr))
  : Rand (result pystr) :=
  attempts max_attempts length existing_codes.

(** [r'^(https?|ftp)://[^\s/$.?#].[^\s]*$'] with [re.IGNORECASE], without its
    anchors. *)
Definition url_pattern : Regex.regex :=
  Regex.seq
    [ Regex.Alt (Regex.Cat (Regex.ilits "http") (Regex.opt (Regex.ichr 115)))
                (Regex.ilits "ftp");
      Regex.lits "://";
      Regex.Class Regex.host_start;
      Regex.Class Regex.dot;
      Regex.Star (Regex.Class Regex.not_space) ].

(** [is_valid_url(url)] *)
Definition is_valid_url (url : pyval) : bool :=
  if negb (truthy url) || negb (is_str url) then false
  else match url with
       | VStr s => Regex.match_anchored url_pattern (strip s)
       | _ => false
       end.

(** The strings of the pattern, spelled out: a scheme, [://], one character
    of [[^\s/$.?#]], one character other than a newline, and characters that
    are not whitespace up to the end. *)
Definition url_shaped (t : pystr) : Prop :=
  ∃ (scheme : pystr) (c1 c2 : char) (rest : pystr),
    t = scheme ++ lit "://" ++ c1 :: c2 :: rest
    ∧ (Regex.folds_to "http" scheme ∨ Regex.folds_to "https" scheme
       ∨ Regex.folds_to "ftp" scheme)
    ∧ Regex.host_start c1 = true
    ∧ c2 ≠ 10%N
    ∧ Forall (λ c, Unicode.isspace c = false) rest.

(** [validate_short_code(short_code)] *)
Definition validate_short_code (short_code : pystr) : bool :=
  if match short_code with [] => true | _ => false end
     || negb (Nat.eqb (length short_code) 6)
  then false
  else str_isalnum short_code.

(** ** [app/models.py] *)

(** The record kept for one short code: the dict with the keys ['url'],
    ['clicks'] and ['created_at']. *)
Record entry : Type := Entry { url : pystr; clicks : Z; created_at : pystr }.

(** [URLStore]: the dict [self.urls]. Every method runs to completion before
    the next one starts, which is what [self.lock] gives the two writers. *)
Module URLStore.

(** [__init__] *)
Definition init : gmap pystr entry := ∅.

(** [save_url(short_code, original_url)]; [now] is the value of
    [datetime.utcnow().isoformat()] read during the call. *)
Definition save_url (now short_code original_url : pystr)
    (urls : gmap pystr entry) : gmap pystr entry :=
  <[short_code := Entry original_url 0 now]> urls.

(** [get_url(short_code)] *)
Definition get_url (short_code : pystr) (urls : gmap pystr entry)
  : option entry :=
  urls !! short_code.

(** [self.urls[short_code]['clicks'] += 1] *)
Definition click (e : entry) : entry :=
  Entry (url e) (clicks e + 1) (created_at e).

(** [increment_clicks(short_code)] *)
Definition increment_clicks (short_code : pystr) (urls : gmap pystr entry)
  : gmap pystr entry * bool :=
  if bool_decide (short_code ∈ dom urls)
  then (alter click short_code urls, true)
  else (urls, false).

(** [code_exists(short_code)] *)
Definition code_exists (short_code : pystr) (urls : gmap pystr entry) : bool :=
  bool_decide (short_code ∈ dom urls).

(** One call on the store, and what it returns. *)
Inductive op : Type :=
| Save (now short_code original_url : pystr)
| Get (short_code : pystr)
| Incr (short_code : pystr)
| Exists (short_code : pystr).

Inductive answer : Type :=
| Unit
| Found (e : option entry)
| Flag (b : bool).

Definition step (o : op) (urls : gmap pystr entry)
  : gmap pystr entry * answer :=
  match o with
  | Save now c u => (save_url now c u urls, Unit)
  | Get c => (urls, Found (get_url c urls))
  | Incr c => let (urls', b) := increment_clicks c urls in (urls', Flag b)
  | Exists c => (urls, Flag (code_exists c urls))
  end.

(** The store after a sequence of calls. *)
Fixpoint run (ops : list op) (urls : gmap pystr entry) : gmap pystr entry :=
  match ops with
  | [] => urls
  | o :: ops' => run ops' (step o urls).1
  end.

(** [o] is a [save_url] under the code [c]. *)
Definition saves (c : pystr) (o : op) : bool :=
  match o with
  | Save _ c' _ => bool_decide (c' = c)
  | _ => false
  end.

(** [o] is an [increment_clicks] of the code [c]. *)
Definition increments (c : pystr) (o : op) : bool :=
  match o with
  | Incr c' => bool_decide (c' = c)
  | _ => false
  end.

(** Number of [increment_clicks] calls on [c] in a sequence of calls. *)
Definition increments_in (c : pystr) (ops : list op) : nat :=
  length (filter (λ o, increments c o = true) ops).

(** No call of the sequence is a [save_url] under [c]. *)
Definition no_save (c : pystr) (ops : list op) : bool :=
  forallb (λ o, negb (saves c o)) ops.

(** [k] calls of [increment_clicks(c)] in a row. *)
Definition increment_times (k : nat) (c : pystr) (urls : gmap pystr entry)
  : gmap pystr entry :=
  Nat.iter k (λ s, (increment_clicks c s).1) urls.

End URLStore.

(** ** [app/main.py] *)

Module Main.

Import URLStore.

(** What a handler reads from the request: the outcome of
    [request.get_json()] and [request.host_url]. *)
Record request : Type := Request { get_json : result pyval; host_url : pystr }.

(** The JSON objects the handlers build. *)
Inductive payload : Type :=
| ErrorBody (error : string)
| ShortenBody (short_code short_url : pystr)
| StatsBody (url : pystr) (clicks : Z) (created_at : pystr).

Inductive response : Type :=
| Json (body : payload) (status : Z)
| Redirect (location : pystr) (code : Z).

Definition status_code (r : response) : Z :=
  match r with
  | Json _ status => status
  | Redirect _ code => code
  end.

(** The module-level [url_store] and the state of [random]. *)
Record app : Type := App { url_store : gmap pystr entry; random : rng }.

Fixpoint startswith (p s : pystr) : bool :=
  match p, s with
  | [], _ => true
  | _ :: _, [] => false
  | a :: p', b :: s' => bool_decide (a = b) && startswith p' s'
  end.

(** Substring test [p in s] on two [str]. *)
Fixpoint str_contains (p s : pystr) : bool :=
  startswith p s
  || match s with
     | [] => false
     | _ :: s' => str_contains p s'
     end.

(** [d.get(k)] on the items of a dict. *)
Fixpoint dict_get (k : pystr) (d : list (pystr * pyval)) : option pyval :=
  match d with
  | [] => None
  | (k', v) :: d' => if bool_decide (k' = k) then Some v else dict_get k d'
  end.

(** [k in data] for a [str] key [k]. *)
Definition contains (k : pystr) (data : pyval) : result bool :=
  match data with
  | VDict d => Ok (bool_decide (is_Some (dict_get k d)))
  | VList l =>
      Ok (existsb (fun v => match v with
                            | VStr s => bool_decide (s = k)
                            | _ => false
                            end) l)
  | VStr s => Ok (str_contains k s)
  | _ => Raise "TypeError"
  end.

(** [data[k]] for a [str] key [k]. *)
Definition getitem (k : pystr) (data : pyval) : result pyval :=
  match data with
  | VDict d =>
      match dict_get k d with
      | Some v => Ok v
      | None => Raise "KeyError"
      end
  | _ => Raise "TypeError"
  end.

Definition internal_error : response :=
  Json (ErrorBody "Internal server error") 500.

(** [POST /api/shorten]. The body of the handler is inside [try], and
    [except Exception] answers whatever is raised there with 500. The last
    branch is never taken: [is_valid_url] is [False] on all but [str]. *)
Definition shorten_url (req : request) (now : pystr) (w : app)
  : response * app :=
  match get_json req with
  | Raise _ => (internal_error, w)
  | Ok data =>
      if negb (truthy data) then (Json (ErrorBody "URL is required") 400, w)
      else
        match contains (lit "url") data with
        | Raise _ => (internal_error, w)
        | Ok false => (Json (ErrorBody "URL is required") 400, w)
        | Ok true =>
            match getitem (lit "url") data with
            | Raise _ => (internal_error, w)
            | Ok original_url =>
                if negb (is_valid_url original_url)
                then (Json (ErrorBody "Invalid URL format") 400, w)
                else
                  match original_url with
                  | VStr u =>
                      let existing_codes := dom (url_store w) in
                      match generate_short_code 6 (Some existing_codes)
                              (random w) with
                      | (Raise _, g) => (internal_error, App (url_store w) g)
                      | (Ok short_code, g) =>
                          (Json (ShortenBody short_code
                                   (host_url req ++ short_code)) 201,
                           App (save_url now short_code u (url_store w)) g)
                      end
                  | _ => (internal_error, w)
                  end
            end
        end
  end.

(** A carriage return or a line feed somewhere in [s]. *)
Definition has_newline (s : pystr) : bool :=
  existsb (λ c, (c =? 10) || (c =? 13))%N s.

(** [flask_redirect(location, code=...)]: the response carries [location] in
    its [Location] header, and setting a header to a value with a carriage
    return or a line feed in it raises [ValueError]. *)
Definition flask_redirect (location : pystr) (code : Z) : result response :=
  if has_newline location then Raise "ValueError"
  else Ok (Redirect location code).

(** [GET /<short_code>]. [url_data] is the stored dict itself; the increment
    leaves its ['url'] as it is. Nothing in the handler catches what
    [flask_redirect] raises, and by then the click has been counted. *)
Definition redirect_url (short_code : pystr) (w : app)
  : result response * app :=
  if negb (validate_short_code short_code)
  then (Ok (Json (ErrorBody "Invalid short code format") 404), w)
  else
    match get_url short_code (url_store w) with
    | None => (Ok (Json (ErrorBody "Short code not found") 404), w)
    | Some url_data =>
        let (urls', _) := increment_clicks short_code (url_store w) in
        (flask_redirect (url url_data) 302, App urls' (random w))
    end.

(** [GET /api/stats/<short_code>] *)
Definition get_stats (short_code : pystr) (w : app) : response * app :=
  if negb (validate_short_code short_code)
  then (Json (ErrorBody "Invalid short code format") 404, w)
  else
    match get_url short_code (url_store w) with
    | None => (Json (ErrorBody "Short code not found") 404, w)
    | Some url_data =>
        (Json (StatsBody (url url_data) (clicks url_data)
                 (created_at url_data)) 200, w)
    end.

End Main.

(** ** The validators as the specification words them *)

Module Spec.

(** [t] without the leading word [w], each character compared with [eq]. *)
Fixpoint after (eq : char → char → bool) (w t : pystr) : option pystr :=
  match w, t with
  | [], _ => Some t
  | _ :: _, [] => None
  | c :: w', x :: t' => if eq c x then after eq w' t' else None
  end.

(** At least one character that is not whitespace and none of [/ . ? #],
    then any characters that are not whitespace, to the end. *)
Definition host_and_rest (t : pystr) : bool :=
  match t with
  | [] => false
  | c1 :: rest =>
      negb (Unicode.isspace c1)
      && negb (bool_decide (c1 ∈ lit "/.?#"))
      && forallb (λ c, negb (Unicode.isspace c)) rest
  end.

(** The scheme [w] in any case, then [://], then the above. *)
Definition has_scheme (w : string) (t : pystr) : bool :=
  match after Regex.icase (lit w) t with
  | Some t1 =>
      match after N.eqb (lit "://") t1 with
      | Some t2 => host_and_rest t2
      | None => false
      end
  | None => false
  end.

(** [isValidURL(s)] of the specification. *)
Definition isValidURL (s : pystr) : bool :=
  match strip s with
  | [] => false
  | t => has_scheme "http" t || has_scheme "https" t || has_scheme "ftp" t
  end.

(** [isValidShortCode(s)] of the specification. *)
Definition isValidShortCode (s : pystr) : bool :=
  Nat.eqb (length s) 6 && forallb Unicode.ascii_alnum s.

End Spec.

(** ** Concrete data used in the examples below *)

Module Sample.

(** The random source whose [n]-th draw is [7 * n]. *)
Definition sevens : rng := Rng (λ n, 7 * n)%nat 0.

Definition code : pystr := lit "abc123".
Definition other : pystr := lit "xyz789".
Definition u0 : pystr := lit "https://www.example.com/test".
Definition u1 : pystr := lit "https://www.example.com/analytics-test".
Definition t0 : pystr := lit "2024-01-01T10:00:00.000001".
Definition t1 : pystr := lit "2024-01-01T10:00:05.250000".

(** One url saved under [code] and clicked once. *)
Definition clicked_once : gmap pystr entry :=
  URLStore.run [URLStore.Save t0 code u0; URLStore.Incr code] URLStore.init.

(** The application with that url stored and an unused random source. *)
Definition running : Main.app := Main.App clicked_once sevens.

Definition bad_request : Main.request :=
  Main.Request (Ok (VDict [(lit "url", VStr (lit "not-a-url"))]))
    (lit "http://localhost/").

Definition good_request : Main.request :=
  Main.Request (Ok (VDict [(lit "url", VStr u1)])) (lit "http://localhost/").



End Sample.

(** ** The candidates of one call of the generator *)

(** The [i]-th candidate that [generate_short_code(length, ...)] draws, if it
    gets that far, when it starts with the random source [g]. *)
Definition candidate (length : Z) (g : rng) (i : nat) : pystr :=
  (random_code (Z.to_nat length)
     (Rng (tape g) (pos g + i * Z.to_nat length))).1.

(** The code that a call on the store is about. *)
Definition target (o : URLStore.op) : pystr :=
  match o with
  | URLStore.Save _ c _ => c
  | URLStore.Get c => c
  | URLStore.Incr c => c
  | URLStore.Exists c => c
  end.

(** ** Requests one after the other *)

Module Server.

Import Main.

(** A request, as the routes of [app/main.py] dispatch it. *)
Inductive call : Type :=
| Shorten (req : request) (now : pystr)
| Visit (short_code : pystr)
| Stats (short_code : pystr).

(** What the handler of a request returns or raises, and the application it
    leaves. *)
Definition handle (r : call) (w : app) : result response * app :=
  match r with
  | Shorten req now => let (resp, w') := shorten_url req now w in (Ok resp, w')
  | Visit short_code => redirect_url short_code w
  | Stats short_code => let (resp, w') := get_stats short_code w in (Ok resp, w')
  end.

(** The application after a sequence of requests. *)
Fixpoint serve (rs : list call) (w : app) : app :=
  match rs with
  | [] => w
  | r :: rs' => serve rs' (handle r w).2
  end.

(** The application at start-up: [url_store = URLStore()]. *)
Definition start (g : rng) : app := App URLStore.init g.

(** [r] is a [GET /<c>]. *)
Definition visit_of (c : pystr) (r : call) : bool :=
  match r with
  | Visit c' => bool_decide (c' = c)
  | _ => false
  end.

(** Number of [GET /<c>] in a sequence of requests. *)
Definition visits (c : pystr) (rs : list call) : nat :=
  length (filter (λ r, visit_of c r = true) rs).

(** Every entry is under a code of six characters of [A-Za-z0-9], holds a
    url that [is_valid_url] accepts, and has not been clicked a negative
    number of times. *)
Definition sound (w : app) : Prop :=
  ∀ c e, url_store w !! c = Some e →
    length c = 6%nat
    ∧ Forall (λ ch, Unicode.ascii_alnum ch = true) c
    ∧ is_valid_url (VStr (url e)) = true
    ∧ 0 ≤ clicks e.

End Server.

(** * Properties *)

(** ** The store *)

Section StoreFacts.

Import URLStore.

Implicit Types (urls : gmap pystr entry) (c u now : pystr) (e : entry).

Lemma code_exists_true urls c :
  code_exists c urls = true ↔ is_Some (urls !! c).
Proof.
  unfold code_exists. rewrite bool_decide_eq_true. apply elem_of_dom.
Qed.

Lemma increment_present urls c e :
  urls !! c = Some e →
  increment_clicks c urls = (<[c := click e]> urls, true).
Proof.
  intros He. unfold increment_clicks.
  rewrite bool_decide_eq_true_2 by (apply elem_of_dom; eauto).
  f_equal. apply map_eq. intros k.
  destruct (decide (c = k)) as [->|Hne].
  - by rewrite lookup_alter_eq, lookup_insert_eq, He.
  - by rewrite lookup_alter_ne, lookup_insert_ne.
Qed.

Lemma increment_absent urls c :
  urls !! c = None → increment_clicks c urls = (urls, false).
Proof.
  intros Hn. unfold increment_clicks.
  rewrite bool_decide_eq_false_2; [done|].
  rewrite elem_of_dom, Hn. by intros [? ?].
Qed.

(** The calls that are not a save under [c] keep what is stored under [c],
    up to its counter, which they raise by one or leave alone. *)
Lemma step_keeps urls o c e :
  saves c o = false →
  urls !! c = Some e →
  (step o urls).1 !! c
  = Some (Entry (url e)
            (clicks e + (if increments c o then 1 else 0)) (created_at e)).
Proof.
  intros Hs He. destruct o as [n c' u'|c'|c'|c']; simpl in *.
  - apply bool_decide_eq_false in Hs. unfold save_url.
    rewrite lookup_insert_ne by done. rewrite He, Z.add_0_r. by destruct e.
  - rewrite He, Z.add_0_r. by destruct e.
  - destruct (increment_clicks c' urls) as [urls' b] eqn:Hi. simpl.
    case_bool_decide as Hc.
    + subst c'. rewrite (increment_present _ _ _ He) in Hi.
      inversion Hi; subst. by rewrite lookup_insert_eq.
    + destruct (urls !! c') as [e'|] eqn:He'.
      * rewrite (increment_present _ _ _ He') in Hi. inversion Hi; subst.
        rewrite lookup_insert_ne by done.
        rewrite He, Z.add_0_r. by destruct e.
      * rewrite (increment_absent _ _ He') in Hi. inversion Hi; subst.
        rewrite He, Z.add_0_r. by destruct e.
  - rewrite He, Z.add_0_r. by destruct e.
Qed.

Lemma step_dom urls o : dom urls ⊆ dom (step o urls).1.
Proof.
  destruct o as [n c u|c|c|c]; simpl; try done.
  - unfold save_url. rewrite dom_insert. set_solver.
  - unfold increment_clicks. case_bool_decide; simpl; [|done].
    by rewrite dom_alter.
Qed.

Lemma run_dom ops urls : dom urls ⊆ dom (run ops urls).
Proof.
  revert urls. induction ops as [|o ops IH]; intros urls; simpl; [done|].
  etrans; [apply step_dom | apply IH].
Qed.

Lemma run_keeps ops : ∀ urls c e,
  no_save c ops = true →
  urls !! c = Some e →
  run ops urls !! c
  = Some (Entry (url e) (clicks e + Z.of_nat (increments_in c ops))
            (created_at e)).
Proof.
  induction ops as [|o ops IH]; intros urls c e Hs He; simpl in *.
  - rewrite He, Z.add_0_r. by destruct e.
  - apply andb_true_iff in Hs as [Ho Hs]. apply negb_true_iff in Ho.
    rewrite (IH _ c _ Hs (step_keeps urls o c e Ho He)). simpl.
    unfold increments_in. rewrite filter_cons.
    case_decide as Hd; [rewrite Hd | apply not_true_is_false in Hd; rewrite Hd];
      simpl length; do 2 f_equal; lia.
Qed.

Lemma increment_times_run k c urls :
  increment_times k c urls = run (replicate k (Incr c)) urls.
Proof.
  revert urls. induction k as [|k IH]; intros urls; [done|].
  unfold increment_times in *. rewrite Nat.iter_succ_r. simpl.
  rewrite IH. by destruct (increment_clicks c urls).
Qed.

Lemma increments_in_replicate k c :
  increments_in c (replicate k (Incr c)) = k.
Proof.
  unfold increments_in. induction k as [|k IH]; [done|]. simpl.
  rewrite filter_cons_True by (simpl; by rewrite bool_decide_eq_true_2).
  simpl. by rewrite IH.
Qed.

Lemma no_save_replicate k c : no_save c (replicate k (Incr c)) = true.
Proof. unfold no_save. by induction k. Qed.

(** C2: whatever the store holds, [save_url(c, u)] leaves it in a state where
    [get_url(c)] is the entry with url [u], zero clicks and the creation time
    read during the call; an entry that was already stored under [c],
    whatever it was, is replaced without any check. *)
Theorem save_then_get urls now c u :
  get_url c (save_url now c u urls) = Some (Entry u 0 now)
  ∧ ∀ old, get_url c (save_url now c u (<[c := old]> urls))
           = Some (Entry u 0 now).
Proof.
  unfold get_url, save_url. split; [|intros old]; apply lookup_insert_eq.
Qed.

(** C3: on a stored code [increment_clicks] returns [True], adds exactly one
    to the clicks of that entry and changes nothing else, neither its url and
    creation time nor any other entry; on a code that is not stored it
    returns [False] and the store is unchanged. Hence after [save_url(c, u)]
    and [K] increments of [c], with any calls in between that do not save
    under [c], the clicks of [c] are [K]. *)
Theorem increment_clicks_spec urls c :
  (∀ e, get_url c urls = Some e →
     ∃ urls', increment_clicks c urls = (urls', true)
       ∧ get_url c urls'
         = Some (Entry (url e) (clicks e + 1) (created_at e))
       ∧ ∀ c', c' ≠ c → get_url c' urls' = get_url c' urls)
  ∧ (get_url c urls = None → increment_clicks c urls = (urls, false))
  ∧ (∀ now u K,
       get_url c (increment_times K c (save_url now c u urls))
       = Some (Entry u (Z.of_nat K) now))
  ∧ (∀ now u ops, no_save c ops = true →
       get_url c (run ops (save_url now c u urls))
       = Some (Entry u (Z.of_nat (increments_in c ops)) now)).
Proof.
  unfold get_url. repeat split.
  - intros e He. eexists. split; [by apply increment_present|]. split.
    + by rewrite lookup_insert_eq.
    + intros c' Hne. by rewrite lookup_insert_ne.
  - apply increment_absent.
  - intros now u K. rewrite increment_times_run.
    rewrite (run_keeps _ _ c (Entry u 0 now));
      [|apply no_save_replicate|unfold save_url; apply lookup_insert_eq].
    by rewrite increments_in_replicate.
  - intros now u ops Hs.
    rewrite (run_keeps _ _ c (Entry u 0 now));
      [done|done|unfold save_url; apply lookup_insert_eq].
Qed.

(** C4, as the store behaves: over any sequence of calls the set of stored
    codes only grows and a code has at most one entry; a code that is stored
    keeps its url and creation time, and its clicks never go down, as long as
    no call of the sequence saves under that same code. A [save_url] under a
    stored code replaces its entry: new url, new creation time, clicks 0. *)
Theorem store_history urls ops c :
  dom urls ⊆ dom (run ops urls)
  ∧ (∀ e1 e2, get_url c (run ops urls) = Some e1 →
              get_url c (run ops urls) = Some e2 → e1 = e2)
  ∧ (∀ e, get_url c urls = Some e → no_save c ops = true →
       ∃ e', get_url c (run ops urls) = Some e'
         ∧ url e' = url e ∧ created_at e' = created_at e
         ∧ clicks e ≤ clicks e')
  ∧ (∀ now u, get_url c (step (Save now c u) urls).1 = Some (Entry u 0 now)).
Proof.
  unfold get_url. repeat split.
  - apply run_dom.
  - congruence.
  - intros e He Hs. eexists. split; [by apply run_keeps|].
    simpl. repeat split. lia.
  - intros now u. simpl. apply lookup_insert_eq.
Qed.

Lemma increment_clicks_spec_witness :
  get_url Sample.code
    (run [Incr Sample.code; Get Sample.code;
          Save Sample.t1 Sample.other Sample.u1; Incr Sample.code]
       (save_url Sample.t0 Sample.code Sample.u0 init))
  = Some (Entry Sample.u0 2 Sample.t0)
  ∧ increment_clicks Sample.code init = (init, false)
  ∧ ∃ urls', increment_clicks Sample.code Sample.clicked_once = (urls', true)
      ∧ get_url Sample.code urls' = Some (Entry Sample.u0 2 Sample.t0)
      ∧ ∀ c', c' ≠ Sample.code →
          get_url c' urls' = get_url c' Sample.clicked_once.
Proof.
  split; [|split].
  - apply (proj2 (proj2 (proj2 (increment_clicks_spec init Sample.code)))
             Sample.t0 Sample.u0). reflexivity.
  - apply (proj1 (proj2 (increment_clicks_spec init Sample.code))).
    reflexivity.
  - apply (proj1 (increment_clicks_spec Sample.clicked_once Sample.code)
             (Entry Sample.u0 1 Sample.t0)). reflexivity.
Defined.

(** C4 as stated fails: saving again under a stored code that has one click
    puts its clicks back to 0 and changes its url and creation time. *)
Lemma save_over_stored_code_resets :
  ∃ e e',
    get_url Sample.code Sample.clicked_once = Some e
    ∧ get_url Sample.code
        (step (Save Sample.t1 Sample.code Sample.u1) Sample.clicked_once).1
      = Some e'
    ∧ clicks e' < clicks e
    ∧ url e' ≠ url e
    ∧ created_at e' ≠ created_at e.
Proof.
  exists (Entry Sample.u0 1 Sample.t0), (Entry Sample.u1 0 Sample.t1).
  split; [reflexivity|]. split; [reflexivity|]. simpl.
  split; [lia|]. split; discriminate.
Qed.

Lemma store_history_witness :
  dom Sample.clicked_once
  ⊆ dom (run [Incr Sample.code; Save Sample.t1 Sample.other Sample.u1]
           Sample.clicked_once)
  ∧ ∃ e', get_url Sample.code
            (run [Incr Sample.code; Save Sample.t1 Sample.other Sample.u1]
               Sample.clicked_once) = Some e'
      ∧ url e' = Sample.u0 ∧ created_at e' = Sample.t0 ∧ 1 ≤ clicks e'.
Proof.
  split.
  - apply (store_history Sample.clicked_once
             [Incr Sample.code; Save Sample.t1 Sample.other Sample.u1]
             Sample.code).
  - apply (proj1 (proj2 (proj2 (store_history Sample.clicked_once
             [Incr Sample.code; Save Sample.t1 Sample.other Sample.u1]
             Sample.code))) (Entry Sample.u0 1 Sample.t0));
      reflexivity.
Defined.

(** C10: [code_exists(c)] is [True] exactly when [get_url(c)] is an entry and
    [False] exactly when it is [None], in every state of the store and so in
    every state that a sequence of calls reaches from the empty store. *)
Theorem code_exists_agrees_with_get urls c :
  (code_exists c urls = true ↔ ∃ e, get_url c urls = Some e)
  ∧ (code_exists c urls = false ↔ get_url c urls = None)
  ∧ ∀ ops, (step (Exists c) (run ops init)).2 = Flag true
           ↔ ∃ e, (step (Get c) (run ops init)).2 = Found (Some e).
Proof.
  assert (Hiff : ∀ m : gmap pystr entry,
             code_exists c m = true ↔ ∃ e, get_url c m = Some e).
  { intros m. rewrite code_exists_true. done. }
  split; [apply Hiff|]. split.
  - rewrite <- not_true_iff_false, Hiff. unfold get_url.
    destruct (urls !! c); split; try done.
    + intros H. destruct H. eauto.
    + by intros _ [? ?].
  - intros ops. simpl. split.
    + intros [= H]. apply Hiff in H as [e He]. exists e. by rewrite He.
    + intros [e [= He]]. f_equal. apply Hiff. eauto.
Qed.

End StoreFacts.

(** ** The code generator *)

Section GeneratorFacts.

Implicit Types (g : rng) (E : gset pystr) (code : pystr).

Lemma chars_length : length chars = 62%nat.
Proof. reflexivity. Qed.

Lemma existsb_elem_of (ch : char) (s : pystr) :
  existsb (N.eqb ch) s = true → ch ∈ s.
Proof.
  intros H. apply existsb_exists in H as (x & Hin & Heq).
  apply N.eqb_eq in Heq. subst x. by apply list_elem_of_In.
Qed.

Lemma chars_ascii_alnum ch : ch ∈ chars ↔ Unicode.ascii_alnum ch = true.
Proof.
  split.
  - intros H. apply list_elem_of_In in H. vm_compute in H.
    repeat (destruct H as [<-|H]; [reflexivity| ]). destruct H.
  - unfold Unicode.ascii_alnum. intros H.
    apply orb_true_iff in H as [H|H]; [apply orb_true_iff in H as [H|H]|];
      apply andb_true_iff in H as [Hlo Hhi];
      apply N.leb_le in Hlo; apply N.leb_le in Hhi.
    + assert (Hc : (ch = N.of_nat (N.to_nat ch - 48) + 48)%N) by lia.
      rewrite Hc.
      assert (Hb : (N.to_nat ch - 48 < 10)%nat) by lia.
      revert Hb. generalize (N.to_nat ch - 48)%nat. intros n Hb.
      do 10 (destruct n as [|n]; [apply existsb_elem_of; reflexivity| ]). lia.
    + assert (Hc : (ch = N.of_nat (N.to_nat ch - 65) + 65)%N) by lia.
      rewrite Hc.
      assert (Hb : (N.to_nat ch - 65 < 26)%nat) by lia.
      revert Hb. generalize (N.to_nat ch - 65)%nat. intros n Hb.
      do 26 (destruct n as [|n]; [apply existsb_elem_of; reflexivity| ]). lia.
    + assert (Hc : (ch = N.of_nat (N.to_nat ch - 97) + 97)%N) by lia.
      rewrite Hc.
      assert (Hb : (N.to_nat ch - 97 < 26)%nat) by lia.
      revert Hb. generalize (N.to_nat ch - 97)%nat. intros n Hb.
      do 26 (destruct n as [|n]; [apply existsb_elem_of; reflexivity| ]). lia.
Qed.

Lemma choice_chars g :
  (choice chars g).1 ∈ chars
  ∧ pos (choice chars g).2 = S (pos g)
  ∧ tape (choice chars g).2 = tape g.
Proof.
  unfold choice, bind, randbelow, ret. cbv beta iota delta [fst snd pos tape].
  split; [|done].
  apply list_elem_of_In, nth_In. rewrite chars_length.
  apply Nat.mod_upper_bound. done.
Qed.

Lemma random_code_S (n : nat) g :
  random_code (S n) g
  = let (c, g1) := choice chars g in
    let (s, g2) := random_code n g1 in (c :: s, g2).
Proof. reflexivity. Qed.

Lemma attempts_S (k : nat) (L : Z) (ex : option (gset pystr)) g :
  attempts (S k) L ex g
  = let (code, g1) := random_code (Z.to_nat L) g in
    if accepts ex code then (Ok code, g1) else attempts k L ex g1.
Proof.
  simpl. unfold bind. destruct (random_code (Z.to_nat L) g) as [code g1].
  by destruct (accepts ex code).
Qed.

Lemma random_code_spec (n : nat) : ∀ g,
  length (random_code n g).1 = n
  ∧ Forall (λ ch, ch ∈ chars) (random_code n g).1
  ∧ pos (random_code n g).2 = (pos g + n)%nat.
Proof.
  induction n as [|n IH]; intros g.
  - simpl. repeat split; [constructor | lia].
  - rewrite random_code_S.
    destruct (choice_chars g) as (Hin & Hpos & _).
    destruct (choice chars g) as [ch g1]. simpl in Hin, Hpos.
    destruct (IH g1) as (Hlen & Hall & Hp).
    destruct (random_code n g1) as [s g2]. simpl in *.
    repeat split; [lia | by constructor | lia].
Qed.

(** What the retry loop with [k] iterations left does: it stops after [j]
    candidates, each of which took [n] draws, either with the [j]-th one,
    which the exclusion test accepted, or with the exception after all [k]. *)
Lemma attempts_spec (k : nat) (L : Z) (ex : option (gset pystr)) : ∀ g,
  ∃ j : nat,
    (j ≤ k)%nat
    ∧ pos (attempts k L ex g).2 = (pos g + j * Z.to_nat L)%nat
    ∧ match (attempts k L ex g).1 with
      | Ok code =>
          (1 ≤ j)%nat
          ∧ length code = Z.to_nat L
          ∧ Forall (λ ch, ch ∈ chars) code
          ∧ accepts ex code = true
      | Raise _ => j = k
      end.
Proof.
  induction k as [|k IH]; intros g.
  - exists 0%nat. simpl. repeat split; lia.
  - rewrite attempts_S.
    destruct (random_code_spec (Z.to_nat L) g) as (Hlen & Hall & Hp).
    destruct (random_code (Z.to_nat L) g) as [code g1]. simpl in *.
    destruct (accepts ex code) eqn:Hacc.
    + exists 1%nat. simpl. repeat split; try done; lia.
    + destruct (IH g1) as (j & Hj & Hpos & Hres).
      exists (S j). split; [lia|]. split; [lia|].
      destruct (attempts k L ex g1).1; [|lia].
      destruct Hres as (? & ? & ? & ?). repeat split; try done; lia.
Qed.

(** C1: for a length [L ≥ 1] and an exclusion set [E], [generate_short_code]
    tries between 1 and 100 candidates; it either returns a string of exactly
    [L] characters of the 62-character alphabet [A-Za-z0-9] that is not in
    [E], or raises after the 100th candidate. It never returns a member of
    [E]. *)
Theorem generate_short_code_spec (L : Z) E g :
  1 ≤ L →
  length chars = 62%nat
  ∧ ∃ tries : nat,
      (1 ≤ tries ≤ 100)%nat
      ∧ pos (generate_short_code L (Some E) g).2
        = (pos g + tries * Z.to_nat L)%nat
      ∧ match (generate_short_code L (Some E) g).1 with
        | Ok code =>
            Z.of_nat (length code) = L
            ∧ Forall (λ ch, ch ∈ chars ∧ Unicode.ascii_alnum ch = true) code
            ∧ code ∉ E
        | Raise _ => tries = 100%nat
        end.
Proof.
  intros HL. split; [reflexivity|].
  unfold generate_short_code, max_attempts.
  destruct (attempts_spec 100 L (Some E) g) as (j & Hj & Hpos & Hres).
  exists j. destruct (attempts 100 L (Some E) g) as [[code|msg] g'];
    simpl in *.
  - destruct Hres as (H1 & Hlen & Hall & Hacc).
    split; [lia|]. split; [done|]. split; [lia|]. split.
    + eapply Forall_impl; [exact Hall|]. intros ch Hch. split; [done|].
      by apply chars_ascii_alnum.
    + by apply bool_decide_eq_true in Hacc.
  - subst j. split; [lia|]. done.
Qed.

Lemma generate_short_code_spec_witness :
  1 ≤ 6
  ∧ ∃ tries : nat,
      (1 ≤ tries ≤ 100)%nat
      ∧ pos (generate_short_code 6 (Some {[Sample.code]})
               Sample.sevens).2
        = (0 + tries * Z.to_nat 6)%nat
      ∧ match (generate_short_code 6 (Some {[Sample.code]})
                 Sample.sevens).1 with
        | Ok code =>
            Z.of_nat (length code) = 6
            ∧ Forall (λ ch, ch ∈ chars ∧ Unicode.ascii_alnum ch = true) code
            ∧ code ∉ ({[Sample.code]} : gset pystr)
        | Raise _ => tries = 100%nat
        end.
Proof.
  split; [lia|].
  apply (generate_short_code_spec 6 {[Sample.code]} Sample.sevens). lia.
Defined.

(** C9: with [existing_codes = None] the membership test is skipped: for
    every length the result is the first candidate drawn, after one attempt,
    and the exception is never raised. *)
Theorem generate_without_exclusion_set (L : Z) g :
  generate_short_code L None g
  = (Ok (random_code (Z.to_nat L) g).1, (random_code (Z.to_nat L) g).2)
  ∧ (∀ msg, (generate_short_code L None g).1 ≠ Raise msg)
  ∧ pos (generate_short_code L None g).2 = (pos g + 1 * Z.to_nat L)%nat.
Proof.
  assert (Heq : generate_short_code L None g
                = (Ok (random_code (Z.to_nat L) g).1,
                   (random_code (Z.to_nat L) g).2)).
  { unfold generate_short_code, max_attempts. rewrite attempts_S.
    by destruct (random_code (Z.to_nat L) g). }
  split; [exact Heq|]. rewrite Heq. simpl. split; [done|].
  destruct (random_code_spec (Z.to_nat L) g) as (_ & _ & Hp). lia.
Qed.

End GeneratorFacts.

(** ** The regular expression matcher *)

Section RegexFacts.

Import Regex.

Implicit Types (r : regex) (s t : pystr) (c : char).

Lemma Matches_Empty s : Matches Empty s ↔ s = [].
Proof. split; [by inversion 1 | intros ->; constructor]. Qed.

Lemma Matches_Class p s : Matches (Class p) s ↔ ∃ c, s = [c] ∧ p c = true.
Proof.
  split; [inversion 1; eauto | intros (c & -> & ?); by constructor].
Qed.

Lemma Matches_Cat r1 r2 s :
  Matches (Cat r1 r2) s ↔ ∃ s1 s2, s = s1 ++ s2 ∧ Matches r1 s1 ∧ Matches r2 s2.
Proof.
  split; [inversion 1; eauto | intros (s1 & s2 & -> & ? & ?); by constructor].
Qed.

Lemma Matches_Alt r1 r2 s :
  Matches (Alt r1 r2) s ↔ Matches r1 s ∨ Matches r2 s.
Proof.
  split; [inversion 1; eauto | intros [?|?]; by constructor].
Qed.

Lemma nullable_Matches r : nullable r = true ↔ Matches r [].
Proof.
  induction r as [| |p|r1 IH1 r2 IH2|r1 IH1 r2 IH2|r IH]; simpl.
  - split; [done | inversion 1].
  - split; [constructor | done].
  - split; [done | inversion 1].
  - rewrite andb_true_iff, IH1, IH2, Matches_Cat. split.
    + intros [? ?]. by exists [], [].
    + intros (s1 & s2 & Heq & ? & ?). symmetry in Heq.
      apply app_eq_nil in Heq as [-> ->]. done.
  - by rewrite orb_true_iff, IH1, IH2, Matches_Alt.
  - split; [constructor | done].
Qed.

(** A non-empty word of [r*] starts with a non-empty word of [r]. *)
Lemma Matches_Star_cons r c s :
  Matches (Star r) (c :: s) →
  ∃ s1 s2, s = s1 ++ s2 ∧ Matches r (c :: s1) ∧ Matches (Star r) s2.
Proof.
  intros H. remember (Star r) as r' eqn:Hr. remember (c :: s) as s' eqn:Hs.
  induction H as [| | | | | |r0 s1 s2 H1 _ H2 IH2]; try discriminate.
  injection Hr as ->. destruct s1 as [|c' s1]; simpl in Hs.
  - by apply IH2.
  - injection Hs as <- <-. eauto.
Qed.

Lemma deriv_Matches r : ∀ c s, Matches (deriv c r) s ↔ Matches r (c :: s).
Proof.
  induction r as [| |p|r1 IH1 r2 IH2|r1 IH1 r2 IH2|r IH]; intros c s; simpl.
  - split; inversion 1.
  - split; inversion 1.
  - destruct (p c) eqn:Hp.
    + rewrite Matches_Empty, Matches_Class. split.
      * intros ->. eauto.
      * by intros (c' & [= -> ->] & _).
    + rewrite Matches_Class. split; [inversion 1|].
      intros (c' & [= -> ->] & ?). congruence.
  - assert (Hcat : Matches (Cat (deriv c r1) r2) s
                   ↔ ∃ s1 s2, s = s1 ++ s2 ∧ Matches r1 (c :: s1)
                              ∧ Matches r2 s2).
    { rewrite Matches_Cat. by setoid_rewrite IH1. }
    rewrite (Matches_Cat r1 r2).
    destruct (nullable r1) eqn:Hn.
    + rewrite Matches_Alt, Hcat, IH2. apply nullable_Matches in Hn. split.
      * intros [(s1 & s2 & -> & ? & ?)|?].
        -- by exists (c :: s1), s2.
        -- by exists [], (c :: s).
      * intros (s1 & s2 & Heq & H1 & H2). destruct s1 as [|c' s1].
        -- simpl in Heq. subst s2. by right.
        -- injection Heq as -> ->. left. eauto.
    + rewrite Hcat. split.
      * intros (s1 & s2 & -> & ? & ?). by exists (c :: s1), s2.
      * intros (s1 & s2 & Heq & H1 & H2). destruct s1 as [|c' s1].
        -- apply nullable_Matches in H1. congruence.
        -- injection Heq as -> ->. eauto.
  - by rewrite !Matches_Alt, IH1, IH2.
  - rewrite Matches_Cat. setoid_rewrite IH. split.
    + intros (s1 & s2 & -> & ? & ?).
      by apply (MStarApp r (c :: s1) s2).
    + apply Matches_Star_cons.
Qed.

(** The matcher decides the language of the pattern. *)
Lemma fullmatch_Matches s : ∀ r, fullmatch r s = true ↔ Matches r s.
Proof.
  induction s as [|c s IH]; intros r; simpl.
  - apply nullable_Matches.
  - by rewrite IH, deriv_Matches.
Qed.

End RegexFacts.

(** ** The validators *)

Section ValidatorFacts.

Import Regex.

Implicit Types (s t : pystr) (c : char).

Lemma Matches_classes (f : char → char → bool) (l : pystr) : ∀ s,
  Matches (seq ((λ c, Class (f c)) <$> l)) s
  ↔ Forall2 (λ x c, f c x = true) s l.
Proof.
  induction l as [|c l IH]; intros s; simpl.
  - rewrite Matches_Empty. split; [intros ->; constructor | by inversion 1].
  - rewrite Matches_Cat. split.
    + intros (s1 & s2 & -> & H1 & H2).
      apply Matches_Class in H1 as (x & -> & Hx). simpl.
      constructor; [done | by apply IH].
    + inversion 1 as [|x ? s' ? Hx Hs']; subst.
      exists [x], s'. split; [done|]. split; [by constructor | by apply IH].
Qed.

Lemma Matches_ilits (w : string) s : Matches (ilits w) s ↔ folds_to w s.
Proof. apply (Matches_classes icase). Qed.

Lemma Matches_lits (w : string) s : Matches (lits w) s ↔ s = lit w.
Proof.
  unfold lits, chr. rewrite (Matches_classes N.eqb).
  generalize (lit w). intros l. split.
  - induction 1 as [|x c ? ? Hx _ IH]; [done|].
    apply N.eqb_eq in Hx. by subst.
  - intros ->. induction l; constructor; [apply N.eqb_refl | done].
Qed.

Lemma Matches_Star_Class (p : char → bool) s :
  Matches (Star (Class p)) s ↔ Forall (λ c, p c = true) s.
Proof.
  split.
  - induction s as [|c s IH]; [constructor|]. intros H.
    apply Matches_Star_cons in H as (s1 & s2 & -> & H1 & H2).
    apply Matches_Class in H1 as (c' & [= -> ->] & Hc).
    constructor; [done | by apply IH].
  - induction 1 as [|c s Hc _ IH]; [constructor|].
    apply (MStarApp _ [c] s); [by constructor | done].
Qed.

Lemma folds_to_https s :
  folds_to "https" s
  ↔ ∃ a x, s = a ++ [x] ∧ folds_to "http" a ∧ icase 115 x = true.
Proof.
  unfold folds_to. change (lit "https") with (lit "http" ++ [115%N]). split.
  - intros H. apply Forall2_app_inv_r in H as (a & b & Ha & Hb & ->).
    inversion Hb as [|x ? ? ? Hx Hnil]; subst. inversion Hnil; subst.
    eauto.
  - intros (a & x & -> & Ha & Hx). apply Forall2_app; [done|].
    by repeat constructor.
Qed.

(** The scheme alternative [(https?|ftp)]. *)
Lemma Matches_scheme s :
  Matches (Alt (Cat (ilits "http") (opt (ichr 115))) (ilits "ftp")) s
  ↔ folds_to "http" s ∨ folds_to "https" s ∨ folds_to "ftp" s.
Proof.
  rewrite Matches_Alt, Matches_Cat, Matches_ilits, folds_to_https. split.
  - intros [(a & b & -> & Ha & Hb)|?]; [|tauto].
    apply Matches_ilits in Ha. unfold opt in Hb.
    apply Matches_Alt in Hb as [Hb|Hb].
    + apply Matches_Class in Hb as (x & -> & Hx). right. left. eauto.
    + apply Matches_Empty in Hb as ->. rewrite app_nil_r. by left.
  - intros [H|[(a & x & -> & Ha & Hx)|H]]; [| |by right].
    + left. exists s, []. rewrite app_nil_r. split; [done|].
      split; [by apply Matches_ilits|]. apply MAltR. constructor.
    + left. exists a, [x]. split; [done|].
      split; [by apply Matches_ilits|]. apply MAltL. by constructor.
Qed.

Lemma Matches_url_pattern t : Matches url_pattern t ↔ url_shaped t.
Proof.
  unfold url_pattern, url_shaped. simpl seq.
  rewrite Matches_Cat. split.
  - intros (s0 & t0 & -> & H0 & H).
    apply Matches_scheme in H0.
    apply Matches_Cat in H as (s1 & t1 & -> & H1 & H).
    apply Matches_lits in H1 as ->.
    apply Matches_Cat in H as (s2 & t2 & -> & H2 & H).
    apply Matches_Class in H2 as (c1 & -> & Hc1).
    apply Matches_Cat in H as (s3 & t3 & -> & H3 & H).
    apply Matches_Class in H3 as (c2 & -> & Hc2).
    apply Matches_Cat in H as (s4 & t4 & -> & H4 & H).
    apply Matches_Empty in H as ->.
    apply Matches_Star_Class in H4.
    exists s0, c1, c2, s4. rewrite app_nil_r. split; [done|].
    split; [done|]. split; [done|]. split.
    + unfold dot in Hc2. apply negb_true_iff, N.eqb_neq in Hc2. done.
    + eapply Forall_impl; [exact H4|]. intros c Hc.
      by apply negb_true_iff in Hc.
  - intros (s0 & c1 & c2 & rest & -> & H0 & Hc1 & Hc2 & Hrest).
    exists s0, (lit "://" ++ c1 :: c2 :: rest). split; [done|].
    split; [by apply Matches_scheme|].
    apply MCat; [by apply Matches_lits|].
    apply (MCat _ _ [c1] (c2 :: rest)); [by constructor|].
    apply (MCat _ _ [c2] rest).
    { constructor. unfold dot. by apply negb_true_iff, N.eqb_neq. }
    rewrite <- (app_nil_r rest). apply MCat; [|constructor].
    apply Matches_Star_Class. eapply Forall_impl; [exact Hrest|].
    intros c Hc. unfold not_space. by rewrite Hc.
Qed.

Lemma lstrip_head s c t : lstrip s = c :: t → Unicode.isspace c = false.
Proof.
  induction s as [|x s IH]; simpl; [done|].
  destruct (Unicode.isspace x) eqn:Hx; [done|]. by intros [= <- _].
Qed.

(** After [strip()] the [$] of the pattern can only hold at the very end. *)
Lemma match_anchored_strip r s :
  match_anchored r (strip s) = fullmatch r (strip s).
Proof.
  unfold match_anchored.
  destruct (rev (strip s)) as [|c p] eqn:Hrev; [by rewrite orb_false_r|].
  unfold strip, rstrip in Hrev. rewrite rev_involutive in Hrev.
  apply lstrip_head in Hrev.
  destruct (c =? 10)%N eqn:Hc; [|by rewrite orb_false_r].
  apply N.eqb_eq in Hc. by subst c.
Qed.

Lemma is_valid_url_str s :
  is_valid_url (VStr s) = true ↔ s ≠ [] ∧ url_shaped (strip s).
Proof.
  unfold is_valid_url. destruct s as [|c s]; simpl truthy; simpl is_str.
  - simpl. split; [done | by intros [? _]].
  - simpl negb. simpl orb. cbv iota.
    rewrite match_anchored_strip, fullmatch_Matches, Matches_url_pattern.
    split; [by intros ? | by intros [_ ?]].
Qed.

Lemma is_valid_url_is_str (v : pyval) :
  is_valid_url v = true → ∃ s, v = VStr s.
Proof.
  destruct v; try (unfold is_valid_url; simpl; by rewrite ?orb_true_r).
  eauto.
Qed.

(** A whitespace character inside a string whose other characters are not
    whitespace sits where the one exception is. *)
Lemma space_position (a : pystr) : ∀ (pre post rest : pystr) (c c2 : char),
  Forall (λ x, Unicode.isspace x = false) a →
  Forall (λ x, Unicode.isspace x = false) rest →
  Unicode.isspace c = true →
  pre ++ c :: post = a ++ c2 :: rest →
  pre = a.
Proof.
  induction a as [|x a IH]; intros pre post rest c c2 Ha Hrest Hc Heq.
  - destruct pre as [|y pre]; [done|]. simpl in Heq.
    injection Heq as -> Heq.
    assert (Hin : c ∈ rest).
    { rewrite <- Heq. apply list_elem_of_In, in_elt. }
    rewrite Forall_forall in Hrest. apply Hrest in Hin. congruence.
  - inversion Ha as [|? ? Hx Ha']; subst.
    destruct pre as [|y pre]; simpl in Heq.
    + injection Heq as -> _. congruence.
    + injection Heq as -> Heq. f_equal. by apply (IH pre post rest c c2).
Qed.

Lemma icase_not_space (c x : char) :
  c ∈ lit "https" ++ lit "ftp" → icase c x = true → Unicode.isspace x = false.
Proof.
  intros Hin Hx. apply list_elem_of_In in Hin. simpl in Hin.
  unfold icase in Hx.
  repeat (destruct Hin as [<-|Hin];
          [repeat (apply orb_true_iff in Hx as [Hx|Hx]);
           try (apply andb_true_iff in Hx as [Hx1 Hx]);
           try discriminate;
           repeat (apply orb_true_iff in Hx as [Hx|Hx]);
           apply N.eqb_eq in Hx; by subst x| ]).
  destruct Hin.
Qed.

Lemma folds_to_not_space (w : string) s :
  (∀ c, c ∈ lit w → c ∈ lit "https" ++ lit "ftp") →
  folds_to w s → Forall (λ x, Unicode.isspace x = false) s.
Proof.
  unfold folds_to. generalize (lit w). intros l Hl H.
  induction H as [|x c s l' Hx _ IH]; constructor.
  - apply (icase_not_space c); [apply Hl; left | done].
  - apply IH. intros c' Hc'. apply Hl. by right.
Qed.

Lemma isalnum_ascii c : (c < 128)%N → Unicode.isalnum c = Unicode.ascii_alnum c.
Proof.
  intros Hc.
  assert (Hall : forallb (λ n, Bool.eqb (Unicode.isalnum (N.of_nat n))
                                 (Unicode.ascii_alnum (N.of_nat n)))
                   (List.seq 0 128) = true) by (vm_compute; reflexivity).
  rewrite forallb_forall in Hall.
  specialize (Hall (N.to_nat c)). rewrite N2Nat.id in Hall.
  apply eqb_prop, Hall, in_seq. lia.
Qed.

Lemma validate_short_code_true s :
  validate_short_code s = true
  ↔ length s = 6%nat ∧ Forall (λ c, Unicode.isalnum c = true) s.
Proof.
  unfold validate_short_code, str_isalnum.
  destruct s as [|c s]; [simpl; split; [done | by intros [? _]]|].
  cbv iota. rewrite orb_false_l.
  destruct (Nat.eqb (length (c :: s)) 6) eqn:Hlen; simpl negb; cbv iota.
  - apply Nat.eqb_eq in Hlen. rewrite Hlen. simpl negb. rewrite andb_true_l.
    rewrite forallb_forall, Forall_forall. split.
    + intros H. split; [done|]. intros x Hx. by apply H, list_elem_of_In.
    + intros [_ H] x Hx. by apply H, list_elem_of_In.
  - apply Nat.eqb_neq in Hlen. split; [done | by intros [? _]].
Qed.

(** C5 as stated fails on three counts: the pattern wants a second character
    after the one that follows [://], lets that second character be
    whitespace, and keeps [$] out of the first. *)
Lemma is_valid_url_differs_from_wording :
  (is_valid_url (VStr (lit "http://a")) = false
   ∧ Spec.isValidURL (lit "http://a") = true)
  ∧ (is_valid_url (VStr (lit "http://a b")) = true
     ∧ Spec.isValidURL (lit "http://a b") = false)
  ∧ (is_valid_url (VStr (lit "http://$a")) = false
     ∧ Spec.isValidURL (lit "http://$a") = true).
Proof. vm_compute. repeat split. Qed.

(** C5, as the pattern reads: [is_valid_url(s)] is [True] exactly when [s] is
    not empty and, once stripped, is a scheme [http], [https] or [ftp] in any
    case, then [://], then one character that is neither whitespace nor one
    of [/ $ . ? #], then one more character, anything but a newline, then
    characters that are not whitespace up to the end. So it rejects the empty
    string and the bare scheme [http://], and a whitespace character left
    after stripping can only be that one character in second place. *)
Theorem is_valid_url_spec s :
  (is_valid_url (VStr s) = true ↔ s ≠ [] ∧ url_shaped (strip s))
  ∧ is_valid_url (VStr []) = false
  ∧ is_valid_url (VStr (lit "http://")) = false
  ∧ (is_valid_url (VStr s) = true →
     ∀ pre c post, strip s = pre ++ c :: post → Unicode.isspace c = true →
       ∃ scheme c1, pre = scheme ++ lit "://" ++ [c1]).
Proof.
  split; [apply is_valid_url_str|]. split; [reflexivity|].
  split; [reflexivity|].
  intros Hv pre c post Heq Hc.
  apply is_valid_url_str in Hv as (_ & scheme & c1 & c2 & rest & Hs & Hsch
                                   & Hc1 & _ & Hrest).
  exists scheme, c1. rewrite Heq in Hs.
  apply (space_position (scheme ++ lit "://" ++ [c1]) pre post rest c c2);
    [|done|done|by rewrite Hs, <- !app_assoc].
  apply Forall_app. split.
  - destruct Hsch as [H|[H|H]];
      (eapply folds_to_not_space; [|exact H]); intros x Hx;
      apply list_elem_of_In in Hx; apply list_elem_of_In; simpl in *; tauto.
  - apply Forall_app. split; [by repeat constructor|].
    constructor; [|constructor]. unfold host_start in Hc1.
    apply negb_true_iff, orb_false_iff in Hc1 as [? _]. done.
Qed.

Lemma is_valid_url_spec_witness :
  is_valid_url (VStr (lit "http://a b")) = true
  ∧ ∃ scheme c1, lit "http://a" = scheme ++ lit "://" ++ [c1].
Proof.
  split; [reflexivity|].
  apply (proj2 (proj2 (proj2 (is_valid_url_spec (lit "http://a b"))))
           eq_refl (lit "http://a") 32%N (lit "b")); reflexivity.
Defined.

(** C6: [is_valid_url] is [False] on the empty string, on [not-a-url], on the
    bare schemes [ftp://] and [http://] and on [just some text], and [True]
    on [https://www.example.com/very/long/url/path]. *)
Theorem is_valid_url_test_cases :
  is_valid_url (VStr (lit "")) = false
  ∧ is_valid_url (VStr (lit "not-a-url")) = false
  ∧ is_valid_url (VStr (lit "ftp://")) = false
  ∧ is_valid_url (VStr (lit "http://")) = false
  ∧ is_valid_url (VStr (lit "just some text")) = false
  ∧ is_valid_url (VStr (lit "https://www.example.com/very/long/url/path"))
    = true.
Proof. vm_compute. repeat split. Qed.

(** C7 as stated fails: six characters one of which is the letter U+00E9
    pass [validate_short_code], although U+00E9 is not in [A-Za-z0-9]. *)
Lemma validate_short_code_accepts_non_ascii :
  validate_short_code (lit "abcde" ++ [233%N]) = true
  ∧ Spec.isValidShortCode (lit "abcde" ++ [233%N]) = false.
Proof. vm_compute. split; reflexivity. Qed.

(** C7, as [str.isalnum] reads: [validate_short_code(s)] is [True] exactly
    when [s] has six characters and each of them is alphanumeric in the
    Unicode sense of [str.isalnum]; when all characters of [s] are ASCII this
    is the same as each of them being in [A-Za-z0-9]. *)
Theorem validate_short_code_spec s :
  (validate_short_code s = true
   ↔ length s = 6%nat ∧ Forall (λ c, Unicode.isalnum c = true) s)
  ∧ (Forall (λ c, (c < 128)%N) s →
     (validate_short_code s = true
      ↔ length s = 6%nat ∧ Forall (λ c, Unicode.ascii_alnum c = true) s)).
Proof.
  split; [apply validate_short_code_true|].
  intros Hascii. rewrite validate_short_code_true.
  assert (Heq : Forall (λ c, Unicode.isalnum c = true) s
                ↔ Forall (λ c, Unicode.ascii_alnum c = true) s).
  { induction Hascii as [|c s Hc _ IH]; [done|].
    rewrite !Forall_cons, IH, (isalnum_ascii c Hc). done. }
  by rewrite Heq.
Qed.

Lemma validate_short_code_spec_witness :
  Forall (λ c, (c < 128)%N) (lit "xyz123")
  ∧ (validate_short_code (lit "xyz123") = true
     ↔ length (lit "xyz123") = 6%nat
       ∧ Forall (λ c, Unicode.ascii_alnum c = true) (lit "xyz123")).
Proof.
  assert (H : Forall (λ c, (c < 128)%N) (lit "xyz123"))
    by (repeat constructor).
  split; [exact H|].
  exact (proj2 (validate_short_code_spec (lit "xyz123")) H).
Defined.

End ValidatorFacts.

(** ** The HTTP handlers *)

Section HandlerFacts.

Import URLStore Main.

Implicit Types (w : app) (req : request) (c u now : pystr) (e : entry).






End HandlerFacts.

(** ** More on the code generator *)

Section GeneratorMore.

Implicit Types (g : rng) (ex : option (gset pystr)) (code : pystr).

Lemma random_code_rng (n : nat) : ∀ g,
  (random_code n g).2 = Rng (tape g) (pos g + n).
Proof.
  induction n as [|n IH]; intros g.
  - simpl. unfold ret. simpl. destruct g. simpl. f_equal. lia.
  - rewrite random_code_S.
    destruct (choice_chars g) as (_ & Hpos & Htape).
    destruct (choice chars g) as [ch g1]. simpl in Hpos, Htape.
    specialize (IH g1). destruct (random_code n g1) as [s g2].
    simpl in *. rewrite IH, Hpos, Htape. f_equal. lia.
Qed.

Lemma candidate_0 (L : Z) g :
  candidate L g 0 = (random_code (Z.to_nat L) g).1.
Proof.
  unfold candidate. destruct g as [t p]. simpl. do 3 f_equal. lia.
Qed.

Lemma candidate_S (L : Z) g (i : nat) :
  candidate L (random_code (Z.to_nat L) g).2 i = candidate L g (S i).
Proof.
  unfold candidate. rewrite random_code_rng. simpl. do 3 f_equal. lia.
Qed.

(** The loop returns the first candidate that the exclusion test accepts,
    and raises when it accepts none of the [k]. *)
Lemma attempts_first (k : nat) (L : Z) ex : ∀ g,
  match (attempts k L ex g).1 with
  | Ok code =>
      ∃ j : nat, (j < k)%nat ∧ code = candidate L g j
        ∧ accepts ex code = true
        ∧ ∀ i : nat, (i < j)%nat → accepts ex (candidate L g i) = false
  | Raise _ =>
      ∀ i : nat, (i < k)%nat → accepts ex (candidate L g i) = false
  end.
Proof.
  induction k as [|k IH]; intros g.
  - simpl. intros i Hi. lia.
  - rewrite attempts_S. pose proof (candidate_0 L g) as H0.
    pose proof (candidate_S L g) as HS.
    destruct (random_code (Z.to_nat L) g) as [code g1]. simpl in H0, HS.
    destruct (accepts ex code) eqn:Hacc.
    + simpl. exists 0%nat. split; [lia|]. split; [done|]. split; [done|].
      intros i Hi. lia.
    + specialize (IH g1). destruct (attempts k L ex g1).1 as [code'|msg].
      * destruct IH as (j & Hj & Hcode & Hacc' & Hbefore).
        exists (S j). split; [lia|]. split; [by rewrite <- HS|].
        split; [done|]. intros [|i] Hi; [by rewrite H0|].
        rewrite <- HS. apply Hbefore. lia.
      * intros [|i] Hi; [by rewrite H0|]. rewrite <- HS. apply IH. lia.
Qed.

Lemma attempts_all_rejected (k : nat) (L : Z) ex g :
  Z.to_nat L = 0%nat → accepts ex [] = false →
  attempts k L ex g = (Raise "Unable to generate unique short code", g).
Proof.
  intros Hn Hrej. induction k as [|k IH]; [done|].
  rewrite attempts_S, Hn. simpl. unfold ret. by rewrite Hrej.
Qed.

(** X1: with an exclusion set [E], [generate_short_code] returns the first of
    its candidates that is not in [E], having found every earlier one in
    [E]; it raises exactly when all 100 candidates are in [E], and then with
    the message [Unable to generate unique short code]. *)
Theorem generate_returns_first_free (L : Z) (E : gset pystr) g :
  match (generate_short_code L (Some E) g).1 with
  | Ok code =>
      ∃ j : nat, (j < 100)%nat ∧ code = candidate L g j ∧ (code ∉ E)
        ∧ ∀ i : nat, (i < j)%nat → candidate L g i ∈ E
  | Raise msg =>
      (msg = "Unable to generate unique short code"%string)
      ∧ ∀ i : nat, (i < 100)%nat → candidate L g i ∈ E
  end.
Proof.
  assert (Hin : ∀ c : pystr, accepts (Some E) c = false → c ∈ E).
  { intros c Hc. simpl in Hc. apply bool_decide_eq_false in Hc.
    by apply dec_stable. }
  unfold generate_short_code, max_attempts.
  pose proof (attempts_first 100 L (Some E) g) as Hfirst.
  assert (Hmsg : ∀ (k : nat) g0 msg,
             (attempts k L (Some E) g0).1 = Raise msg →
             msg = "Unable to generate unique short code"%string).
  { induction k as [|k IH]; intros g0 msg.
    - simpl. by intros [= <-].
    - rewrite attempts_S.
      destruct (random_code (Z.to_nat L) g0) as [c g1].
      destruct (accepts (Some E) c); [done | apply IH]. }
  destruct (attempts 100 L (Some E) g).1 as [code|msg] eqn:Hres.
  - destruct Hfirst as (j & Hj & Hcode & Hacc & Hbefore).
    exists j. split; [done|]. split; [done|].
    split; [by apply bool_decide_eq_true in Hacc|].
    intros i Hi. by apply Hin, Hbefore.
  - split; [by eapply Hmsg|]. intros i Hi. by apply Hin, Hfirst.
Qed.

(** X2: whatever the exclusion set, or without one, a code that
    [generate_short_code] returns has [length] characters (none when
    [length] is not positive), all of them in [A-Za-z0-9]; it passes
    [validate_short_code] exactly when the length asked for is 6. *)
Theorem generated_code_is_valid (L : Z) ex g code g' :
  generate_short_code L ex g = (Ok code, g') →
  length code = Z.to_nat L
  ∧ Forall (λ ch, Unicode.ascii_alnum ch = true) code
  ∧ (validate_short_code code = true ↔ L = 6).
Proof.
  intros Hgen. unfold generate_short_code, max_attempts in Hgen.
  destruct (attempts_spec 100 L ex g) as (j & _ & _ & Hres).
  rewrite Hgen in Hres. simpl in Hres.
  destruct Hres as (_ & Hlen & Hall & _).
  assert (Hascii : Forall (λ ch, Unicode.ascii_alnum ch = true) code).
  { eapply Forall_impl; [exact Hall|]. intros ch. apply chars_ascii_alnum. }
  split; [done|]. split; [done|].
  rewrite validate_short_code_true, Hlen. split.
  - intros [H6 _]. lia.
  - intros ->. split; [done|].
    eapply Forall_impl; [exact Hascii|]. intros ch Hch.
    rewrite isalnum_ascii; [done|].
    unfold Unicode.ascii_alnum in Hch.
    repeat (apply orb_true_iff in Hch as [Hch|Hch]);
      apply andb_true_iff in Hch as [_ Hhi]; apply N.leb_le in Hhi; lia.
Qed.

Lemma generated_code_is_valid_witness :
  length (lit "ahovCJ") = Z.to_nat 6
  ∧ Forall (λ ch, Unicode.ascii_alnum ch = true) (lit "ahovCJ")
  ∧ (validate_short_code (lit "ahovCJ") = true ↔ 6 = 6).
Proof.
  apply (generated_code_is_valid 6 (Some {[Sample.code]}) Sample.sevens
           (lit "ahovCJ") (Rng (tape Sample.sevens) 6)).
  reflexivity.
Defined.

(** X3: for a length that is not positive every candidate is the empty
    string: without an exclusion set, or when the empty string is not in it,
    [generate_short_code] returns the empty string; when the empty string is
    excluded it raises. Either way the random source is left untouched. *)
Theorem generate_nonpositive_length (L : Z) ex g :
  L ≤ 0 →
  generate_short_code L ex g
  = (match ex with
     | Some E =>
         if bool_decide ([] ∈ E)
         then Raise "Unable to generate unique short code"
         else Ok []
     | None => Ok []
     end, g).
Proof.
  intros HL. assert (Hn : Z.to_nat L = 0%nat) by lia.
  unfold generate_short_code, max_attempts.
  destruct (accepts ex []) eqn:Hacc.
  - rewrite attempts_S, Hn. simpl. unfold ret. rewrite Hacc.
    destruct ex as [E|]; [|done]. simpl in Hacc.
    apply bool_decide_eq_true in Hacc. by rewrite bool_decide_eq_false_2.
  - rewrite attempts_all_rejected by done.
    destruct ex as [E|]; [|done]. simpl in Hacc.
    apply bool_decide_eq_false in Hacc.
    rewrite bool_decide_eq_true_2; [done | by apply dec_stable].
Qed.

Lemma generate_nonpositive_length_witness :
  generate_short_code (-3) (Some {[ [] ]}) Sample.sevens
  = (Raise "Unable to generate unique short code", Sample.sevens)
  ∧ generate_short_code 0 (Some {[ Sample.code ]}) Sample.sevens
    = (Ok [], Sample.sevens).
Proof.
  split.
  - etrans;
      [apply (generate_nonpositive_length (-3) (Some {[ [] ]}) Sample.sevens);
       lia | reflexivity].
  - etrans;
      [apply (generate_nonpositive_length 0 (Some {[ Sample.code ]})
                Sample.sevens); lia | reflexivity].
Defined.

End GeneratorMore.

(** ** More on the validators *)

Section ValidatorMore.

Import Regex.

Implicit Types (s t pre post : pystr) (c : char).

Lemma lstrip_spaces pre s :
  Forall (λ c, Unicode.isspace c = true) pre → lstrip (pre ++ s) = lstrip s.
Proof. induction 1 as [|c pre Hc _ IH]; [done|]. simpl. by rewrite Hc. Qed.

Lemma lstrip_app s t : lstrip s ≠ [] → lstrip (s ++ t) = lstrip s ++ t.
Proof.
  induction s as [|c s IH]; [done|]. simpl.
  destruct (Unicode.isspace c); [apply IH | done].
Qed.

Lemma lstrip_nil s :
  lstrip s = [] → Forall (λ c, Unicode.isspace c = true) s.
Proof.
  induction s as [|c s IH]; [constructor|]. simpl.
  destruct (Unicode.isspace c) eqn:Hc; [|done].
  intros H. constructor; [done | by apply IH].
Qed.

Lemma rstrip_spaces t post :
  Forall (λ c, Unicode.isspace c = true) post → rstrip (t ++ post) = rstrip t.
Proof.
  intros Hpost. unfold rstrip. rewrite rev_app_distr, lstrip_spaces; [done|].
  rewrite rev_alt. by apply Forall_reverse.
Qed.

Lemma strip_spaces pre s post :
  Forall (λ c, Unicode.isspace c = true) pre →
  Forall (λ c, Unicode.isspace c = true) post →
  strip (pre ++ s ++ post) = strip s.
Proof.
  intros Hpre Hpost. unfold strip. rewrite lstrip_spaces by done.
  destruct (lstrip s) as [|c t] eqn:Hs.
  - apply lstrip_nil in Hs.
    rewrite <- (app_nil_r (s ++ post)), lstrip_spaces;
      [done | by apply Forall_app].
  - rewrite lstrip_app by (by rewrite Hs). rewrite Hs.
    by apply rstrip_spaces.
Qed.

(** On a [str] the two guards of [is_valid_url] only repeat what the pattern
    says of the empty string. *)
Lemma is_valid_url_fullmatch s :
  is_valid_url (VStr s) = fullmatch url_pattern (strip s).
Proof.
  destruct s as [|c s]; [reflexivity|].
  unfold is_valid_url. simpl truthy. simpl is_str. simpl negb. simpl orb.
  cbv iota. apply match_anchored_strip.
Qed.

Lemma scheme_shape t :
  folds_to "http" t ∨ folds_to "https" t ∨ folds_to "ftp" t →
  Forall (λ x, Unicode.isspace x = false) t ∧ (3 ≤ length t)%nat.
Proof.
  intros H. split.
  - destruct H as [H|[H|H]];
      (eapply folds_to_not_space; [|exact H]); intros x Hx;
      apply list_elem_of_In in Hx; apply list_elem_of_In; simpl in *; tauto.
  - destruct H as [H|[H|H]]; apply Forall2_length in H; rewrite H;
      simpl; lia.
Qed.

(** X4: [is_valid_url] is [True] on nothing but a non-empty [str]: [None],
    booleans, numbers, lists and dicts are all rejected, and so is the empty
    string. *)
Theorem is_valid_url_only_on_str (v : pyval) :
  is_valid_url v = true → ∃ s, v = VStr s ∧ s ≠ [].
Proof.
  intros Hv. destruct (is_valid_url_is_str v Hv) as [s ->].
  exists s. split; [done|]. by intros ->.
Qed.

Lemma is_valid_url_only_on_str_witness :
  ∃ s, VStr (lit "ftp://ab") = VStr s ∧ s ≠ [].
Proof.
  apply (is_valid_url_only_on_str (VStr (lit "ftp://ab"))). reflexivity.
Defined.

(** X5: whitespace around a url does not change the verdict of
    [is_valid_url]. *)
Theorem is_valid_url_ignores_surrounding_space pre s post :
  Forall (λ c, Unicode.isspace c = true) pre →
  Forall (λ c, Unicode.isspace c = true) post →
  is_valid_url (VStr (pre ++ s ++ post)) = is_valid_url (VStr s).
Proof.
  intros Hpre Hpost. by rewrite !is_valid_url_fullmatch, strip_spaces.
Qed.

Lemma is_valid_url_ignores_surrounding_space_witness :
  is_valid_url (VStr ([32; 9]%N ++ lit "http://ab" ++ [10]%N))
  = is_valid_url (VStr (lit "http://ab")).
Proof.
  apply (is_valid_url_ignores_surrounding_space [32; 9]%N (lit "http://ab")
           [10]%N); repeat constructor.
Defined.

(** X6: a url that [is_valid_url] accepts has, once stripped, at least eight
    characters and no line feed among them. *)
Theorem valid_url_has_no_line_feed s :
  is_valid_url (VStr s) = true →
  (8 ≤ length (strip s))%nat ∧ 10%N ∉ strip s.
Proof.
  intros Hv.
  apply is_valid_url_str in Hv as (_ & scheme & c1 & c2 & rest & -> & Hsch
                                   & Hc1 & Hc2 & Hrest).
  apply scheme_shape in Hsch as [Hsp Hlen]. split.
  - rewrite !length_app. simpl. lia.
  - assert (Hno : ∀ l : pystr,
               Forall (λ x, Unicode.isspace x = false) l → 10%N ∉ l).
    { intros l Hl Hin. rewrite Forall_forall in Hl. by apply Hl in Hin. }
    rewrite !elem_of_app, !elem_of_cons.
    intros [H|[H|[H|[H|H]]]].
    + by apply (Hno scheme).
    + by apply (Hno (lit "://")); [repeat constructor|].
    + subst c1. done.
    + by subst c2.
    + by apply (Hno rest).
Qed.

Lemma valid_url_has_no_line_feed_witness :
  (8 ≤ length (strip (lit " ftp://ab ")))%nat
  ∧ 10%N ∉ strip (lit " ftp://ab ").
Proof.
  apply (valid_url_has_no_line_feed (lit " ftp://ab ")). reflexivity.
Defined.

End ValidatorMore.

(** ** More on the store *)

Section StoreMore.

Import URLStore.

Implicit Types (urls : gmap pystr entry) (c u now : pystr) (e : entry).

(** What a call leaves under a code [k]. *)
Lemma step_lookup (o : op) urls (k : pystr) :
  (step o urls).1 !! k
  = if decide (target o = k)
    then match o with
         | Save now _ u => Some (Entry u 0 now)
         | Incr _ => click <$> urls !! k
         | _ => urls !! k
         end
    else urls !! k.
Proof.
  destruct o as [now c u|c|c|c]; simpl; try by case_decide.
  - unfold save_url. case_decide as Hk.
    + subst k. apply lookup_insert_eq.
    + by apply lookup_insert_ne.
  - destruct (urls !! c) as [e|] eqn:He.
    + rewrite (increment_present _ _ _ He). simpl. case_decide as Hk.
      * subst k. by rewrite lookup_insert_eq, He.
      * by apply lookup_insert_ne.
    + rewrite (increment_absent _ _ He). simpl. case_decide as Hk; [|done].
      subst k. by rewrite He.
Qed.

(** X7: [save_url(c, u)] touches no other code: every other lookup is as
    before, the stored codes are the old ones and [c], and the number of
    entries grows by one when [c] is new and stays the same when [c] was
    already stored. *)
Theorem save_url_frame urls now c u :
  (∀ c', c' ≠ c → get_url c' (save_url now c u urls) = get_url c' urls)
  ∧ dom (save_url now c u urls) = {[c]} ∪ dom urls
  ∧ size (save_url now c u urls)
    = if code_exists c urls then size urls else S (size urls).
Proof.
  unfold save_url, get_url. split; [|split].
  - intros c' Hne. by apply lookup_insert_ne.
  - apply dom_insert_L.
  - destruct (code_exists c urls) eqn:Hex.
    + apply code_exists_true in Hex as [e He].
      by apply map_size_insert_Some.
    + apply map_size_insert_None. apply not_true_iff_false in Hex.
      rewrite code_exists_true in Hex.
      destruct (urls !! c); [|done]. destruct Hex. eauto.
Qed.

(** X8: two calls on the store that are about different codes can be
    swapped: the store they leave is the same in either order. *)
Theorem calls_on_different_codes_commute (o1 o2 : op) urls :
  target o1 ≠ target o2 →
  run [o1; o2] urls = run [o2; o1] urls.
Proof.
  intros Hne. simpl. apply map_eq. intros k.
  rewrite !step_lookup.
  destruct (decide (target o1 = k)) as [H1|H1];
    destruct (decide (target o2 = k)) as [H2|H2]; congruence.
Qed.

Lemma calls_on_different_codes_commute_witness :
  run [Incr Sample.code; Save Sample.t1 Sample.other Sample.u1]
    Sample.clicked_once
  = run [Save Sample.t1 Sample.other Sample.u1; Incr Sample.code]
      Sample.clicked_once.
Proof.
  apply (calls_on_different_codes_commute (Incr Sample.code)
           (Save Sample.t1 Sample.other Sample.u1) Sample.clicked_once).
  discriminate.
Defined.

Lemma step_clicks_nonneg (o : op) urls :
  (∀ c e, urls !! c = Some e → 0 ≤ clicks e) →
  ∀ c e, (step o urls).1 !! c = Some e → 0 ≤ clicks e.
Proof.
  intros Hinv c e. rewrite step_lookup. case_decide as Hk; [|apply Hinv].
  destruct o as [now c0 u|c0|c0|c0]; try apply Hinv.
  - by intros [= <-].
  - destruct (urls !! c) as [e0|] eqn:He0; [|done]. intros [= <-]. simpl.
    specialize (Hinv c e0 He0). lia.
Qed.

(** X9: in a store that started empty, whatever calls were made on it, no
    entry has a negative number of clicks. *)
Theorem clicks_never_negative (ops : list op) c e :
  get_url c (run ops init) = Some e → 0 ≤ clicks e.
Proof.
  unfold get_url.
  assert (Hgen : ∀ urls, (∀ c e, urls !! c = Some e → 0 ≤ clicks e) →
                 ∀ c e, run ops urls !! c = Some e → 0 ≤ clicks e).
  { induction ops as [|o ops IH]; intros urls Hinv; [done|].
    simpl. apply IH. by apply step_clicks_nonneg. }
  apply Hgen. intros c0 e0. unfold init. by rewrite lookup_empty.
Qed.

Lemma clicks_never_negative_witness : 0 ≤ clicks (Entry Sample.u0 1 Sample.t0).
Proof.
  apply (clicks_never_negative
           [Save Sample.t0 Sample.code Sample.u0; Incr Sample.code]
           Sample.code (Entry Sample.u0 1 Sample.t0)).
  reflexivity.
Defined.

End StoreMore.

(** ** More on the HTTP handlers *)

Section HandlerMore.

Import URLStore Main Server.

Implicit Types (w : app) (req : request) (c u now : pystr) (e : entry).

Lemma app_eta w : App (url_store w) (random w) = w.
Proof. by destruct w. Qed.

(** A code that the generator returns for the handler is a well-formed short
    code outside the exclusion set. *)
Lemma generate_ok (E : gset pystr) (g g' : rng) (code : pystr) :
  generate_short_code 6 (Some E) g = (Ok code, g') →
  (code ∉ E) ∧ length code = 6%nat
  ∧ Forall (λ ch, Unicode.ascii_alnum ch = true) code.
Proof.
  intros Hgen. unfold generate_short_code, max_attempts in Hgen.
  destruct (attempts_spec 100 6 (Some E) g) as (j & _ & _ & Hres).
  rewrite Hgen in Hres. simpl in Hres.
  destruct Hres as (_ & Hlen & Hall & Hacc).
  split; [by apply bool_decide_eq_true in Hacc|]. split; [done|].
  eapply Forall_impl; [exact Hall|]. intros ch. apply chars_ascii_alnum.
Qed.

(** Six characters of [A-Za-z0-9] make a well-formed short code. *)
Lemma ascii_code_valid (code : pystr) :
  length code = 6%nat →
  Forall (λ ch, Unicode.ascii_alnum ch = true) code →
  validate_short_code code = true.
Proof.
  intros Hlen Hall. apply validate_short_code_true. split; [done|].
  eapply Forall_impl; [exact Hall|]. intros ch Hch.
  rewrite isalnum_ascii; [done|].
  unfold Unicode.ascii_alnum in Hch.
  repeat (apply orb_true_iff in Hch as [Hch|Hch]);
    apply andb_true_iff in Hch as [_ Hhi]; apply N.leb_le in Hhi; lia.
Qed.

(** The four ways [shorten_url] can end. *)
Lemma shorten_url_cases req now w :
  (∃ d u code g,
     get_json req = Ok (VDict d)
     ∧ dict_get (lit "url") d = Some (VStr u)
     ∧ is_valid_url (VStr u) = true
     ∧ generate_short_code 6 (Some (dom (url_store w))) (random w)
       = (Ok code, g)
     ∧ shorten_url req now w
       = (Json (ShortenBody code (host_url req ++ code)) 201,
          App (save_url now code u (url_store w)) g))
  ∨ shorten_url req now w = (Json (ErrorBody "URL is required") 400, w)
  ∨ shorten_url req now w = (Json (ErrorBody "Invalid URL format") 400, w)
  ∨ ∃ g, shorten_url req now w = (internal_error, App (url_store w) g).
Proof.
  assert (H500 : ∃ g, (internal_error, w)
                      = (internal_error, App (url_store w) g)).
  { exists (random w). by rewrite app_eta. }
  unfold shorten_url.
  destruct (get_json req) as [data|msg]; [|do 3 right; exact H500].
  destruct (truthy data); cbv beta iota delta [negb];
    [|right; left; reflexivity].
  destruct (contains (lit "url") data) as [[|]|msg];
    [|right; left; reflexivity|do 3 right; exact H500].
  destruct (getitem (lit "url") data) as [v|msg] eqn:Hget;
    [|do 3 right; exact H500].
  destruct data as [| | | | |l|d];
    cbv beta iota delta [getitem] in Hget; try discriminate.
  destruct (dict_get (lit "url") d) as [v'|] eqn:Hd; [|discriminate].
  injection Hget as ->.
  destruct (is_valid_url v) eqn:Hv; cbv beta iota delta [negb];
    [|right; right; left; reflexivity].
  destruct (is_valid_url_is_str v Hv) as [u ->].
  destruct (generate_short_code 6 (Some (dom (url_store w))) (random w))
    as [[code|msg] g] eqn:Hgen.
  - left. by exists d, u, code, g.
  - do 3 right. by exists g.
Qed.

(** What a request leaves under a code that is stored. *)
Lemma handle_lookup_present (r : call) w c e :
  url_store w !! c = Some e →
  url_store (handle r w).2 !! c
  = Some (Entry (url e)
            (clicks e + (if visit_of c r && validate_short_code c
                         then 1 else 0))
            (created_at e)).
Proof.
  intros He.
  assert (Hsame : url_store w !! c
                  = Some (Entry (url e) (clicks e + 0) (created_at e))).
  { rewrite He, Z.add_0_r. by destruct e. }
  destruct r as [req now|c'|c']; simpl.
  - destruct (shorten_url_cases req now w)
      as [(d & u & code & g & _ & _ & _ & Hgen & ->)|[->|[->|[g ->]]]];
      try done.
    simpl. apply generate_ok in Hgen as [Hfresh _].
    unfold save_url. rewrite lookup_insert_ne; [done|].
    intros ->. apply Hfresh, elem_of_dom. eauto.
  - unfold redirect_url.
    destruct (validate_short_code c') eqn:Hval; simpl.
    + unfold get_url. destruct (url_store w !! c') as [e'|] eqn:He'.
      * rewrite (increment_present _ _ _ He'). simpl.
        case_bool_decide as Hc.
        -- subst c'. rewrite Hval, lookup_insert_eq.
           by replace e' with e by congruence.
        -- by rewrite lookup_insert_ne.
      * simpl. case_bool_decide as Hc; [congruence | done].
    + case_bool_decide as Hc; [|done]. subst c'. by rewrite Hval.
  - unfold get_stats. destruct (validate_short_code c'); simpl; [|done].
    by destruct (get_url c' (url_store w)).
Qed.

Lemma serve_lookup_present (rs : list call) : ∀ w c e,
  url_store w !! c = Some e →
  url_store (serve rs w) !! c
  = Some (Entry (url e)
            (clicks e + (if validate_short_code c
                         then Z.of_nat (visits c rs) else 0))
            (created_at e)).
Proof.
  induction rs as [|r rs IH]; intros w c e He; simpl.
  - rewrite He. destruct (validate_short_code c); simpl;
      rewrite Z.add_0_r; by destruct e.
  - rewrite (IH _ c _ (handle_lookup_present r w c e He)). simpl.
    unfold visits. rewrite filter_cons.
    destruct (validate_short_code c); simpl.
    + rewrite andb_true_r.
      case_decide as Hd;
        [rewrite Hd | apply not_true_is_false in Hd; rewrite Hd];
        simpl length; do 2 f_equal; lia.
    + rewrite andb_false_r. do 2 f_equal. lia.
Qed.

Lemma handle_sound (r : call) w : sound w → sound (handle r w).2.
Proof.
  intros Hw c e. destruct r as [req now|c'|c']; simpl.
  - destruct (shorten_url_cases req now w)
      as [(d & u & code & g & _ & _ & Hv & Hgen & ->)|[->|[->|[g ->]]]];
      try apply Hw.
    simpl. apply generate_ok in Hgen as (_ & Hlen & Hall).
    unfold save_url. destruct (decide (code = c)) as [->|Hne].
    + rewrite lookup_insert_eq. by intros [= <-].
    + rewrite lookup_insert_ne by done. apply Hw.
  - unfold redirect_url. destruct (validate_short_code c'); simpl;
      [|apply Hw].
    unfold get_url. destruct (url_store w !! c') as [e'|] eqn:He';
      [|apply Hw].
    rewrite (increment_present _ _ _ He'). simpl.
    destruct (decide (c' = c)) as [->|Hne].
    + rewrite lookup_insert_eq. intros [= <-].
      destruct (Hw c e' He') as (? & ? & ? & ?). simpl.
      repeat split; try done. lia.
    + rewrite lookup_insert_ne by done. apply Hw.
  - unfold get_stats. destruct (validate_short_code c'); simpl; [|apply Hw].
    destruct (get_url c' (url_store w)); apply Hw.
Qed.

Lemma serve_sound (rs : list call) : ∀ w, sound w → sound (serve rs w).
Proof.
  induction rs as [|r rs IH]; intros w Hw; [done|].
  simpl. by apply IH, handle_sound.
Qed.

Lemma startswith_app (p t : pystr) : startswith p (p ++ t) = true.
Proof.
  induction p as [|a p IH]; [done|]. simpl.
  by rewrite bool_decide_eq_true_2, IH.
Qed.

Lemma str_contains_infix (p a b : pystr) :
  str_contains p (a ++ p ++ b) = true.
Proof.
  assert (Hunfold : ∀ s : pystr,
             str_contains p s
             = startswith p s
               || match s with
                  | [] => false
                  | _ :: s' => str_contains p s'
                  end) by (by intros [|? ?]).
  induction a as [|x a IH]; rewrite Hunfold.
  - change ([] ++ p ++ b) with (p ++ b). by rewrite startswith_app.
  - change ((x :: a) ++ p ++ b) with (x :: (a ++ p ++ b)). cbv beta iota.
    rewrite IH. apply orb_true_r.
Qed.

(** X10: when [shorten_url] answers 201, the code it returns was not stored
    before, is a well-formed short code, and ends the [short_url], which is
    the host url followed by the code; the store is the old one with one
    entry more, made of the url of the request, zero clicks and the time of
    the call, and every entry that was stored is still there unchanged. *)
Theorem shorten_url_created req now w c su w' :
  shorten_url req now w = (Json (ShortenBody c su) 201, w') →
  (c ∉ dom (url_store w))
  ∧ validate_short_code c = true
  ∧ su = host_url req ++ c
  ∧ (∃ d u, get_json req = Ok (VDict d)
       ∧ dict_get (lit "url") d = Some (VStr u)
       ∧ is_valid_url (VStr u) = true
       ∧ url_store w' = <[c := Entry u 0 now]> (url_store w))
  ∧ (∀ c' e, url_store w !! c' = Some e → url_store w' !! c' = Some e)
  ∧ size (url_store w') = S (size (url_store w)).
Proof.
  intros Hs.
  destruct (shorten_url_cases req now w)
    as [(d & u & code & g & Hj & Hd & Hv & Hgen & Heq)|[Heq|[Heq|[g Heq]]]];
    rewrite Heq in Hs; try discriminate.
  injection Hs as <- <- <-.
  apply generate_ok in Hgen as (Hfresh & Hlen & Hall).
  assert (Hnone : url_store w !! code = None) by by apply not_elem_of_dom.
  split; [done|]. split; [by apply ascii_code_valid|]. split; [done|].
  split; [by exists d, u|]. simpl. unfold save_url. split.
  - intros c' e He. rewrite lookup_insert_ne; [done|]. congruence.
  - by apply map_size_insert_None.
Qed.

Lemma shorten_url_created_witness :
  (lit "ahovCJ" ∉ dom Sample.clicked_once)
  ∧ validate_short_code (lit "ahovCJ") = true
  ∧ lit "http://localhost/ahovCJ" = lit "http://localhost/" ++ lit "ahovCJ"
  ∧ (∃ d u, get_json Sample.good_request = Ok (VDict d)
       ∧ dict_get (lit "url") d = Some (VStr u)
       ∧ is_valid_url (VStr u) = true
       ∧ save_url Sample.t1 (lit "ahovCJ") Sample.u1 Sample.clicked_once
         = <[lit "ahovCJ" := Entry u 0 Sample.t1]> Sample.clicked_once)
  ∧ (∀ c' e, Sample.clicked_once !! c' = Some e →
       save_url Sample.t1 (lit "ahovCJ") Sample.u1 Sample.clicked_once !! c'
       = Some e)
  ∧ size (save_url Sample.t1 (lit "ahovCJ") Sample.u1 Sample.clicked_once)
    = S (size Sample.clicked_once).
Proof.
  apply (shorten_url_created Sample.good_request Sample.t1 Sample.running
           (lit "ahovCJ") (lit "http://localhost/ahovCJ")
           (App (save_url Sample.t1 (lit "ahovCJ") Sample.u1
                   Sample.clicked_once) (Rng (tape Sample.sevens) 6))).
  reflexivity.
Defined.

(** X11: a body that is falsy ([null], [false], [0], an empty string, list
    or object) and an object without the key [url] are answered with 400
    and [URL is required]; nothing is stored and no random draw is made. *)
Theorem shorten_url_without_url req now w data :
  get_json req = Ok data →
  truthy data = false ∨ (∃ d, data = VDict d ∧ dict_get (lit "url") d = None) →
  shorten_url req now w = (Json (ErrorBody "URL is required") 400, w).
Proof.
  intros Hj Hd. unfold shorten_url. rewrite Hj.
  destruct (truthy data) eqn:Ht; cbv beta iota delta [negb]; [|done].
  destruct Hd as [?|(d & -> & Hd)]; [done|].
  unfold contains. rewrite Hd.
  rewrite bool_decide_eq_false_2; [done | by intros [? ?]].
Qed.

Lemma shorten_url_without_url_witness :
  shorten_url (Request (Ok (VDict [(lit "link", VStr Sample.u1)])) [])
    Sample.t1 Sample.running
  = (Json (ErrorBody "URL is required") 400, Sample.running)
  ∧ shorten_url (Request (Ok (VList [])) []) Sample.t1 Sample.running
    = (Json (ErrorBody "URL is required") 400, Sample.running).
Proof.
  split.
  - apply (shorten_url_without_url _ Sample.t1 Sample.running
             (VDict [(lit "link", VStr Sample.u1)])); [reflexivity|].
    right. by eexists.
  - apply (shorten_url_without_url _ Sample.t1 Sample.running (VList []));
      [reflexivity|]. by left.
Defined.

(** X12: a request whose JSON cannot be read, and a body that is [true], a
    non-zero number, a list that has the string [url] among its items, or a
    string that contains [url], are all answered with 500 and
    [Internal server error]; nothing is stored and no random draw is made. *)
Theorem shorten_url_internal_errors req now w :
  (∃ msg, get_json req = Raise msg)
  ∨ get_json req = Ok (VBool true)
  ∨ (∃ z, z ≠ 0 ∧ get_json req = Ok (VInt z))
  ∨ get_json req = Ok (VFloat true)
  ∨ (∃ l, In (VStr (lit "url")) l ∧ get_json req = Ok (VList l))
  ∨ (∃ a b, get_json req = Ok (VStr (a ++ lit "url" ++ b))) →
  shorten_url req now w = (internal_error, w).
Proof.
  unfold shorten_url.
  intros [[msg ->]|[->|[(z & Hz & ->)|[->|[(l & Hl & ->)|(a & b & ->)]]]]];
    try done.
  - simpl truthy. apply Z.eqb_neq in Hz. by rewrite Hz.
  - assert (Ht : truthy (VList l) = true) by by destruct l.
    rewrite Ht. cbv beta iota delta [negb]. unfold contains.
    assert (Hex : existsb (λ v, match v with
                                | VStr s => bool_decide (s = lit "url")
                                | _ => false
                                end) l = true).
    { apply existsb_exists. exists (VStr (lit "url")). split; [done|].
      by apply bool_decide_eq_true_2. }
    by rewrite Hex.
  - assert (Ht : truthy (VStr (a ++ lit "url" ++ b)) = true)
      by by destruct a.
    rewrite Ht. cbv beta iota delta [negb]. unfold contains.
    by rewrite str_contains_infix.
Qed.

Lemma shorten_url_internal_errors_witness :
  shorten_url (Request (Ok (VList [VInt 1; VStr (lit "url")])) [])
    Sample.t1 Sample.running
  = (internal_error, Sample.running)
  ∧ shorten_url (Request (Ok (VInt 7)) []) Sample.t1 Sample.running
    = (internal_error, Sample.running).
Proof.
  split.
  - apply (shorten_url_internal_errors
             (Request (Ok (VList [VInt 1; VStr (lit "url")])) [])).
    do 4 right. left. eexists. split; [|reflexivity]. right. by left.
  - apply (shorten_url_internal_errors (Request (Ok (VInt 7)) [])).
    do 2 right. left. by exists 7.
Defined.

(** X13: [shorten_url] answers 201, 400 or 500 and nothing else; unless it
    answers 201 the store is as it was, and when it answers 400 not even a
    random draw has been made. *)
Theorem shorten_url_outcomes req now w :
  (status_code (shorten_url req now w).1 = 201
   ∨ status_code (shorten_url req now w).1 = 400
   ∨ status_code (shorten_url req now w).1 = 500)
  ∧ (status_code (shorten_url req now w).1 ≠ 201 →
     url_store (shorten_url req now w).2 = url_store w)
  ∧ (status_code (shorten_url req now w).1 = 400 →
     (shorten_url req now w).2 = w).
Proof.
  destruct (shorten_url_cases req now w)
    as [(d & u & code & g & _ & _ & _ & _ & ->)|[->|[->|[g ->]]]]; simpl;
    repeat split; try done; tauto.
Qed.

Lemma shorten_url_outcomes_witness :
  url_store (shorten_url Sample.bad_request Sample.t1 Sample.running).2
  = Sample.clicked_once
  ∧ (shorten_url Sample.bad_request Sample.t1 Sample.running).2
    = Sample.running.
Proof.
  split.
  - apply (proj1 (proj2 (shorten_url_outcomes Sample.bad_request Sample.t1
                           Sample.running))). discriminate.
  - apply (proj2 (proj2 (shorten_url_outcomes Sample.bad_request Sample.t1
                           Sample.running))). reflexivity.
Defined.



(** X15: over any sequence of requests an entry that is stored stays stored
    with the same url and creation time, and its clicks go up by exactly the
    number of [GET /<code>] requests for it (by none if its code is not
    well formed): no request overwrites or removes an entry. *)
Theorem stored_entries_survive (rs : list call) w c e :
  url_store w !! c = Some e →
  url_store (serve rs w) !! c
  = Some (Entry (url e)
            (clicks e + (if validate_short_code c
                         then Z.of_nat (visits c rs) else 0))
            (created_at e)).
Proof. apply serve_lookup_present. Qed.

Lemma stored_entries_survive_witness :
  url_store
    (serve [Visit Sample.code; Shorten Sample.good_request Sample.t1;
            Stats Sample.code; Visit Sample.other; Visit Sample.code]
       Sample.running) !! Sample.code
  = Some (Entry Sample.u0 3 Sample.t0).
Proof.
  apply (stored_entries_survive
           [Visit Sample.code; Shorten Sample.good_request Sample.t1;
            Stats Sample.code; Visit Sample.other; Visit Sample.code]
           Sample.running Sample.code (Entry Sample.u0 1 Sample.t0)).
  reflexivity.
Defined.

(** X16: in the application as any sequence of requests leaves it after
    start-up, every stored code has six characters of [A-Za-z0-9] and passes
    [validate_short_code], every stored url passes [is_valid_url], and no
    entry has a negative number of clicks. *)
Theorem served_store_is_sound (rs : list call) (g : rng) c e :
  url_store (serve rs (start g)) !! c = Some e →
  length c = 6%nat
  ∧ Forall (λ ch, Unicode.ascii_alnum ch = true) c
  ∧ validate_short_code c = true
  ∧ is_valid_url (VStr (url e)) = true
  ∧ 0 ≤ clicks e.
Proof.
  intros He.
  assert (Hstart : sound (start g)).
  { intros c0 e0. unfold start, init. simpl. by rewrite lookup_empty. }
  destruct (serve_sound rs _ Hstart c e He) as (Hlen & Hall & Hv & Hc).
  repeat split; try done. by apply ascii_code_valid.
Qed.

Lemma served_store_is_sound_witness :
  length (lit "ahovCJ") = 6%nat
  ∧ Forall (λ ch, Unicode.ascii_alnum ch = true) (lit "ahovCJ")
  ∧ validate_short_code (lit "ahovCJ") = true
  ∧ is_valid_url (VStr (url (Entry Sample.u1 1 Sample.t1))) = true
  ∧ 0 ≤ clicks (Entry Sample.u1 1 Sample.t1).
Proof.
  apply (served_store_is_sound
           [Shorten Sample.good_request Sample.t1; Visit (lit "ahovCJ")]
           Sample.sevens (lit "ahovCJ") (Entry Sample.u1 1 Sample.t1)).
  reflexivity.
Defined.



(** X18: two shorten requests that both answer 201, whatever requests come
    between them, never return the same code. *)
Theorem shortened_codes_differ req1 now1 w c1 su1 w1 (rs : list call)
    req2 now2 c2 su2 w2 :
  shorten_url req1 now1 w = (Json (ShortenBody c1 su1) 201, w1) →
  shorten_url req2 now2 (serve rs w1) = (Json (ShortenBody c2 su2) 201, w2) →
  c1 ≠ c2.
Proof.
  intros H1 H2.
  destruct (shorten_url_cases req1 now1 w)
    as [(d & u & code & g & _ & _ & _ & _ & Heq)|[Heq|[Heq|[g Heq]]]];
    rewrite Heq in H1; try discriminate.
  injection H1 as <- <- <-.
  destruct (shorten_url_cases req2 now2
              (serve rs (App (save_url now1 code u (url_store w)) g)))
    as [(d' & u' & code' & g' & _ & _ & _ & Hgen & Heq')|[Heq'|[Heq'|[g' Heq']]]];
    rewrite Heq' in H2; try discriminate.
  injection H2 as <- <- <-.
  apply generate_ok in Hgen as [Hfresh _]. intros ->.
  apply Hfresh, elem_of_dom. eexists.
  apply (serve_lookup_present rs _ code' (Entry u 0 now1)).
  simpl. unfold save_url. apply lookup_insert_eq.
Qed.

Lemma shortened_codes_differ_witness : lit "ahovCJ" ≠ lit "QX4bip".
Proof.
  apply (shortened_codes_differ Sample.good_request Sample.t1 Sample.running
           (lit "ahovCJ") (lit "http://localhost/ahovCJ")
           (shorten_url Sample.good_request Sample.t1 Sample.running).2
           [Visit (lit "ahovCJ"); Stats Sample.code]
           Sample.good_request Sample.t0
           (lit "QX4bip") (lit "http://localhost/QX4bip")
           (shorten_url Sample.good_request Sample.t0
              (serve [Visit (lit "ahovCJ"); Stats Sample.code]
                 (shorten_url Sample.good_request Sample.t1
                    Sample.running).2)).2);
    reflexivity.
Defined.

End HandlerMore.
